(** * DigitalProducts storefront (src/app.jsx): a shallow embedding

    The React application is one file.  This development embeds the parts
    of it that carry logic: the session provider ([AuthProvider]), the cart
    provider ([CartProvider]), the price formatter ([formatPrice]) and the
    event handlers that talk to the backend ([buyNow], [doCheckout],
    [create], [uploadFile], [submit]).

    Conventions.
    - JavaScript values that come from the network are [jsval]s; truthiness,
      optional chaining [?.], [||] and string coercion follow ECMAScript.
    - Integral JavaScript numbers are [Z] (exact below 2^53, where [+] on
      doubles is exact as well).  The one place where the code divides,
      [formatPrice], is modelled on the binary64 value itself.
    - Handlers are computations in a small state/exception monad [M] that
      also logs what the user and the network observe ([event]).  The
      backend is an oracle [net] from requests to replies. *)

From Stdlib Require Import ZArith Lia Ascii String.
From stdpp Require Import base decidable option list strings gmap.

Local Open Scope string_scope.
Local Open Scope list_scope.
Local Open Scope Z_scope.

(** ** Decimal rendering of integers *)

Definition digit_char (d : Z) : ascii :=
  Ascii.ascii_of_nat (48 + Z.to_nat d).

(** Digits of a non-negative integer, most significant first.  The fuel is
    an upper bound on the number of digits. *)
Fixpoint digits_fuel (fuel : nat) (n : Z) (acc : string) : string :=
  match fuel with
  | O => acc
  | S fuel' =>
      let acc' := String (digit_char (n mod 10)) acc in
      if n / 10 =? 0 then acc' else digits_fuel fuel' (n / 10) acc'
  end.

Definition decimal_digits (n : Z) : string :=
  digits_fuel (S (Z.to_nat (Z.log2 n))) n "".

(** [String(n)] for an integral number. *)
Definition Z_to_string (n : Z) : string :=
  if n <? 0 then "-" +:+ decimal_digits (- n) else decimal_digits n.

(** [s.repeat(n)] for a one-character string. *)
Fixpoint repeat_char (c : ascii) (n : nat) : string :=
  match n with
  | O => ""
  | S n' => String c (repeat_char c n')
  end.

(** ** binary64 division and [Number.prototype.toFixed]

    A finite positive double is [mant * 2^expo]; [dbl_div a b] is the
    correctly rounded (round to nearest, ties to even) quotient of two
    positive integers, which is what [p / 100] evaluates to when [p] is an
    integer below 2^53.  Subnormals and overflow cannot arise from such
    operands. *)

Record dbl := { mant : Z; expo : Z }.

Definition dbl_div (a b : Z) : dbl :=
  let k := Z.log2 a - Z.log2 b in
  (* the quotient lies in (2^(k-1), 2^(k+1)) *)
  let scaled e := (a * 2 ^ Z.max 0 (- e), b * 2 ^ Z.max 0 e) in
  let e0 := k - 52 in
  let '(n0, d0) := scaled e0 in
  let e := if n0 / d0 <? 2 ^ 52 then e0 - 1 else e0 in
  let '(n, d) := scaled e in
  let q := n / d in
  let r := n mod d in
  let q' :=
    match 2 * r ?= d with
    | Lt => q
    | Gt => q + 1
    | Eq => if Z.even q then q else q + 1
    end in
  {| mant := q'; expo := e |}.

(** [x.toFixed(f)] for a non-negative finite [x] below 10^21:
    "let n be an integer for which n / 10^f - x is as close to zero as
    possible; if there are two such n, pick the larger n", then the digits
    of n, left-padded with zeros to f+1 characters, with a point before the
    last f of them. *)
Definition toFixed_nearest (x : dbl) (f : nat) : Z :=
  let num := mant x * 10 ^ Z.of_nat f * 2 ^ Z.max 0 (expo x) in
  let den := 2 ^ Z.max 0 (- expo x) in
  (2 * num + den) / (2 * den).

Definition toFixed_digits (n : Z) (f : nat) : string :=
  let m := decimal_digits n in
  let k := String.length m in
  let m := if (k <=? f)%nat then repeat_char "0"%char (f + 1 - k) +:+ m else m in
  let k := String.length m in
  if (f =? 0)%nat then m
  else substring 0 (k - f) m +:+ "." +:+ substring (k - f) f m.

Definition toFixed (x : dbl) (f : nat) : string :=
  toFixed_digits (toFixed_nearest x f) f.

(** [(p / 100).toFixed(2)] for an integral [p]: zero divides to zero, a
    negative dividend yields the mirrored quotient and [toFixed] puts the
    sign in front. *)
Definition div100_toFixed2 (p : Z) : string :=
  if p =? 0 then toFixed_digits 0 2
  else if p <? 0 then "-" +:+ toFixed (dbl_div (- p) 100) 2
  else toFixed (dbl_div p 100) 2.

(** function formatPrice(p) { return p === 0 ? 'Free' : '$' + (p / 100).toFixed(2); } *)
Definition formatPrice (p : Z) : string :=
  if p =? 0 then "Free" else "$" +:+ div100_toFixed2 p.

(** ** JavaScript values

    What [axios] hands back in [res.data] is parsed JSON.  The field list
    of an object holds its own properties, each key once. *)

#[warnings="-register-all"]
Inductive jsval :=
| JUndefined
| JNull
| JBool (b : bool)
| JNum (n : Z)
| JStr (s : string)
| JArr (elems : list jsval)
| JObj (fields : list (string * jsval)).

(** ToBoolean *)
Definition truthy (v : jsval) : bool :=
  match v with
  | JUndefined | JNull => false
  | JBool b => b
  | JNum n => negb (n =? 0)
  | JStr s => negb (String.eqb s "")
  | JArr _ | JObj _ => true
  end.

Fixpoint own_property (k : string) (fields : list (string * jsval)) : jsval :=
  match fields with
  | [] => JUndefined
  | (k', v) :: fields' => if String.eqb k k' then v else own_property k fields'
  end.

(** [v?.k].  On a primitive or an array the lookup goes to the prototype,
    which has none of the keys read in this program (data, token, error,
    downloadUrl, id, filePath). *)
Definition opt_get (v : jsval) (k : string) : jsval :=
  match v with
  | JObj fields => own_property k fields
  | _ => JUndefined
  end.

(** [a || b] *)
Definition js_or (a b : jsval) : jsval := if truthy a then a else b.

(** ToString, as applied by ['Bearer ' + token], [alert(msg)], template
    literals and [localStorage.setItem]. *)
Fixpoint to_str (v : jsval) : string :=
  match v with
  | JUndefined => "undefined"
  | JNull => "null"
  | JBool true => "true"
  | JBool false => "false"
  | JNum n => Z_to_string n
  | JStr s => s
  | JArr elems =>
      (* Array.prototype.join: null and undefined elements print empty *)
      let elem x := match x with JUndefined | JNull => "" | _ => to_str x end in
      (fix join (l : list jsval) : string :=
         match l with
         | [] => ""
         | [x] => elem x
         | x :: rest => elem x +:+ "," +:+ join rest
         end) elems
  | JObj _ => "[object Object]"
  end.

(** ** Data model *)

(** A product id is a primitive: a number or a string.  [===] does not
    coerce, so the number 1 and the string "1" differ. *)
Inductive ident := IdNum (n : Z) | IdStr (s : string).

#[global] Instance ident_eq_dec : EqDecision ident.
Proof. solve_decision. Defined.

Definition ident_val (i : ident) : jsval :=
  match i with IdNum n => JNum n | IdStr s => JStr s end.

Record Product := {
  id : ident;
  title : string;
  description : string;
  price : Z;
  coverImageUrl : string
}.

(** A cart line is [{ ...product, qty }]. *)
Record line := { product : Product; qty : Z }.

#[global] Instance Product_eq_dec : EqDecision Product.
Proof. solve_decision. Defined.

#[global] Instance line_eq_dec : EqDecision line.
Proof. solve_decision. Defined.

(** ** CartProvider: the three state updaters *)

(** const add = (product, qty = 1) => setItems(prev => {
      const found = prev.find(p => p.id === product.id);
      if (found) return prev.map(p => p.id === product.id ? { ...p, qty: p.qty + qty } : p);
      return [...prev, { ...product, qty }] });
    An omitted argument ([None]) takes the default. *)
Definition same_id (i : ident) (p : line) : bool :=
  bool_decide (id (product p) = i).

Definition add (product0 : Product) (qty0 : option Z) (prev : list line) : list line :=
  let qty1 := default 1 qty0 in
  match List.find (same_id (id product0)) prev with
  | Some found =>
      map (fun p => if same_id (id product0) p
                    then {| product := product p; qty := qty p + qty1 |}
                    else p) prev
  | None => prev ++ [ {| product := product0; qty := qty1 |} ]
  end.

(** const remove = (id) => setItems(prev => prev.filter(p => p.id !== id)); *)
Definition remove (i : ident) (prev : list line) : list line :=
  List.filter (fun p => negb (same_id i p)) prev.

(** const clear = () => setItems([]); *)
Definition clear : list line := [].

(** The operations the cart context exposes, and carts built with them. *)
Inductive cart_op :=
| OpAdd (p : Product) (q : option Z)
| OpRemove (i : ident)
| OpClear.

Definition apply_op (c : list line) (op : cart_op) : list line :=
  match op with
  | OpAdd p q => add p q c
  | OpRemove i => remove i c
  | OpClear => clear
  end.

Definition run_ops (ops : list cart_op) : list line := foldl apply_op [] ops.

(** ** The browser, the network and the handler monad *)

Inductive http_method := GET | POST.

Inductive payload :=
| NoBody
| Json (v : jsval)
| FormData (parts : list (string * string)).

(** An outbound call as axios sends it: the headers are the per-call
    [config.headers] laid over [axios.defaults.headers.common]. *)
Record request := {
  method : http_method;
  url : string;
  body : payload;
  headers : gmap string string
}.

(** axios resolves with a response object on a 2xx status and rejects with
    an error otherwise; the error carries the response when the server sent
    one ([e.response]) and none on a transport failure. *)
Record response := { data : jsval }.
Record axios_error := { err_response : option response }.
Inductive reply := Resolved (r : response) | Rejected (e : axios_error).

(** The response as a value, for code that reads it with [?.]. *)
Definition response_val (r : response) : jsval := JObj [("data", data r)].

(** The state the handlers share.  [axios_defaults] holds what the program
    itself puts into [axios.defaults.headers.common]. *)
Record world := {
  token : jsval;                        (* AuthProvider: [token, setToken] *)
  user : option string;                 (* AuthProvider: [user, setUser], the email *)
  localStorage : gmap string string;
  axios_defaults : gmap string string;  (* axios.defaults.headers.common *)
  items : list line;                    (* CartProvider: [items, setItems] *)
  toast_msg : jsval;                    (* ProductDetail: useToast().msg *)
  admin_products : jsval;               (* AdminPage: [products, setProducts] *)
  admin_loading : bool                  (* AdminPage: [loading, setLoading] *)
}.

Definition setToken (t : jsval) (w : world) : world :=
  {| token := t; user := user w; localStorage := localStorage w;
     axios_defaults := axios_defaults w; items := items w;
     toast_msg := toast_msg w; admin_products := admin_products w;
     admin_loading := admin_loading w |}.

Definition setUser (u : option string) (w : world) : world :=
  {| token := token w; user := u; localStorage := localStorage w;
     axios_defaults := axios_defaults w; items := items w;
     toast_msg := toast_msg w; admin_products := admin_products w;
     admin_loading := admin_loading w |}.

Definition update_localStorage (f : gmap string string -> gmap string string)
    (w : world) : world :=
  {| token := token w; user := user w; localStorage := f (localStorage w);
     axios_defaults := axios_defaults w; items := items w;
     toast_msg := toast_msg w; admin_products := admin_products w;
     admin_loading := admin_loading w |}.

Definition update_axios_defaults (f : gmap string string -> gmap string string)
    (w : world) : world :=
  {| token := token w; user := user w; localStorage := localStorage w;
     axios_defaults := f (axios_defaults w); items := items w;
     toast_msg := toast_msg w; admin_products := admin_products w;
     admin_loading := admin_loading w |}.

Definition setItems (f : list line -> list line) (w : world) : world :=
  {| token := token w; user := user w; localStorage := localStorage w;
     axios_defaults := axios_defaults w; items := f (items w);
     toast_msg := toast_msg w; admin_products := admin_products w;
     admin_loading := admin_loading w |}.

Definition setMsg (m : jsval) (w : world) : world :=
  {| token := token w; user := user w; localStorage := localStorage w;
     axios_defaults := axios_defaults w; items := items w;
     toast_msg := m; admin_products := admin_products w;
     admin_loading := admin_loading w |}.

Definition setProducts (ps : jsval) (w : world) : world :=
  {| token := token w; user := user w; localStorage := localStorage w;
     axios_defaults := axios_defaults w; items := items w;
     toast_msg := toast_msg w; admin_products := ps;
     admin_loading := admin_loading w |}.

Definition setLoading (b : bool) (w : world) : world :=
  {| token := token w; user := user w; localStorage := localStorage w;
     axios_defaults := axios_defaults w; items := items w;
     toast_msg := toast_msg w; admin_products := admin_products w;
     admin_loading := b |}.

(** What leaves the program: calls to the backend, [alert] boxes,
    assignments to [window.location.href] and router navigations. *)
Inductive event :=
| ERequest (r : request)
| EAlert (msg : string)
| ELocation (href : string)
| ENavigate (path : string).

Inductive outcome (A : Type) :=
| Ret (a : A)
| Throw (e : axios_error).
Arguments Ret {A} a.
Arguments Throw {A} e.

(** A handler runs against the backend oracle and the current state; it
    ends normally or with a rejected promise, in a new state, having
    produced a trace. *)
Definition M (A : Type) : Type :=
  (request -> reply) -> world -> outcome A * world * list event.

#[global] Instance M_ret : MRet M := fun A a _ w => (Ret a, w, []).

#[global] Instance M_bind : MBind M := fun A B f m net w =>
  match m net w with
  | (Ret a, w1, t1) => let '(o, w2, t2) := f a net w1 in (o, w2, t1 ++ t2)
  | (Throw e, w1, t1) => (Throw e, w1, t1)
  end.

(** [try { m } catch (e) { h }], and [promise.catch(h)]. *)
Definition try_catch {A} (m : M A) (h : axios_error -> M A) : M A :=
  fun net w =>
    match m net w with
    | (Throw e, w1, t1) => let '(o, w2, t2) := h e net w1 in (o, w2, t1 ++ t2)
    | r => r
    end.

Definition gets {A} (f : world -> A) : M A := fun _ w => (Ret (f w), w, []).
Definition modify (f : world -> world) : M unit := fun _ w => (Ret tt, f w, []).
Definition emit (ev : event) : M unit := fun _ w => (Ret tt, w, [ev]).

Definition axios_call (mth : http_method) (u : string) (b : payload)
    (config_headers : gmap string string) : M response :=
  fun net w =>
    let req := {| method := mth; url := u; body := b;
                  headers := config_headers ∪ axios_defaults w |} in
    match net req with
    | Resolved r => (Ret r, w, [ERequest req])
    | Rejected e => (Throw e, w, [ERequest req])
    end.

Definition axios_get (u : string) : M response := axios_call GET u NoBody ∅.
Definition axios_post (u : string) (b : payload)
    (config_headers : gmap string string) : M response :=
  axios_call POST u b config_headers.

Definition alert (msg : jsval) : M unit := emit (EAlert (to_str msg)).
Definition set_location_href (v : jsval) : M unit := emit (ELocation (to_str v)).
Definition navigate (path : string) : M unit := emit (ENavigate path).

Definition result_of {A} (r : outcome A * world * list event) : outcome A := r.1.1.
Definition world_of {A} (r : outcome A * world * list event) : world := r.1.2.
Definition trace_of {A} (r : outcome A * world * list event) : list event := r.2.

(** The calls to the backend in a trace, in order. *)
Definition requests (t : list event) : list request :=
  omap (fun ev => match ev with ERequest r => Some r | _ => None end) t.

(** ** AuthProvider *)

(** useEffect(() => { if (token) { ... } else { ... } }, [token]) *)
Definition token_effect : M unit :=
  tok ← gets token;
  if truthy tok then
    modify (update_localStorage <["token" := to_str tok]>);;
    modify (setUser (Some "user@me"));;
    modify (update_axios_defaults <["Authorization" := "Bearer " +:+ to_str tok]>)
  else
    modify (update_localStorage (delete "token"));;
    modify (update_axios_defaults (delete "Authorization"));;
    modify (setUser None).

(** The value of the context's [login] and [register]: [{ ok: true }] or
    [{ ok: false, error }]. *)
Record auth_result := { ok : bool; error : jsval }.

Definition credentials (email password : string) : payload :=
  Json (JObj [("email", JStr email); ("password", JStr password)]).

(** const login = async (email, password) => {
      const res = await axios.post('/api/auth/login', { email, password });
      if (res.data?.token) { setToken(res.data.token); return { ok: true }; }
      return { ok: false, error: res.data?.error || 'Login failed' }; }; *)
Definition login (email password : string) : M auth_result :=
  res ← axios_post "/api/auth/login" (credentials email password) ∅;
  if truthy (opt_get (data res) "token") then
    modify (setToken (opt_get (data res) "token"));;
    mret {| ok := true; error := JUndefined |}
  else
    mret {| ok := false;
            error := js_or (opt_get (data res) "error") (JStr "Login failed") |}.

Definition register (email password : string) : M auth_result :=
  res ← axios_post "/api/auth/register" (credentials email password) ∅;
  if truthy (opt_get (data res) "token") then
    modify (setToken (opt_get (data res) "token"));;
    mret {| ok := true; error := JUndefined |}
  else
    mret {| ok := false;
            error := js_or (opt_get (data res) "error") (JStr "Register failed") |}.

(** const logout = () => setToken(null); *)
Definition logout : M unit := modify (setToken JNull).

(** ** AuthPage.submit and the header's logout button *)

Inductive auth_mode := ModeLogin | ModeRegister.

Definition submit (mode : auth_mode) (email pass : string) : M unit :=
  match mode with
  | ModeLogin =>
      r ← login email pass;
      if ok r then navigate "/" else alert (error r)
  | ModeRegister =>
      r ← register email pass;
      if ok r then navigate "/" else alert (error r)
  end.

(** onClick={() => { auth.logout(); navigate('/'); }} *)
Definition logout_click : M unit := logout;; navigate "/".

(** ** ProductDetail.buyNow *)

(** [toast.show] is the setter of the hook's [msg]; the timer that resets
    it after 3.5 s is not part of the model. *)
Definition toast_show (msg : jsval) : M unit := modify (setMsg msg).

Definition checkout_body (productId : jsval) : payload :=
  Json (JObj [("productId", productId)]).

(** [pid] is the route parameter of /product/:id. *)
Definition buyNow (pid : string) : M unit :=
  tok ← gets token;
  if negb (truthy tok) then toast_show (JStr "Please login first")
  else
    try_catch
      (res ← axios_post "/api/checkout" (checkout_body (JStr pid)) ∅;
       if truthy (opt_get (data res) "downloadUrl") then
         set_location_href (opt_get (data res) "downloadUrl")
       else
         toast_show (js_or (opt_get (data res) "error") (JStr "Checkout failed")))
      (fun _ => toast_show (JStr "Checkout error")).

(** ** Checkout.doCheckout *)

Definition doCheckout : M unit :=
  tok ← gets token;
  if negb (truthy tok) then alert (JStr "Login first")
  else
    its ← gets items;
    match its with
    | [] => alert (JStr "Cart empty")
    | first :: _ =>
        try_catch
          (res ← axios_post "/api/checkout"
                   (checkout_body (ident_val (id (product first)))) ∅;
           if truthy (opt_get (data res) "downloadUrl") then
             set_location_href (opt_get (data res) "downloadUrl");;
             modify (setItems (fun _ => clear))
           else
             alert (js_or (opt_get (data res) "error") (JStr "Checkout failed")))
          (fun _ => alert (JStr "Checkout error"))
    end.

(** ** AdminPage *)

(** const load = () => axios.get('/api/products')
      .then(r => { setProducts(r.data); setLoading(false); })
      .catch(() => setLoading(false)); *)
Definition load : M unit :=
  try_catch
    (r ← axios_get "/api/products";
     modify (setProducts (data r));;
     modify (setLoading false))
    (fun _ => modify (setLoading false)).

(** The creation form after [{ ...form, price: Number(form.price) }]. *)
Record product_form := {
  form_title : string;
  form_description : string;
  form_price : Z;
  form_coverImageUrl : string
}.

Definition form_payload (form : product_form) : payload :=
  Json (JObj [("title", JStr (form_title form));
              ("description", JStr (form_description form));
              ("price", JNum (form_price form));
              ("coverImageUrl", JStr (form_coverImageUrl form))]).

Definition bearer (tok : jsval) : gmap string string :=
  {["Authorization" := "Bearer " +:+ to_str tok]}.

(** [.catch(e => e.response?.data)] *)
Definition error_body (e : axios_error) : jsval :=
  match err_response e with
  | Some r => data r
  | None => JUndefined
  end.

Definition create (form : product_form) : M unit :=
  tok ← gets token;
  if negb (truthy tok) then alert (JStr "Login as admin")
  else
    res ← try_catch
            (r ← axios_post "/api/admin/products" (form_payload form) (bearer tok);
             mret (response_val r))
            (fun e => mret (error_body e));
    if truthy (opt_get (opt_get res "data") "id") then
      alert (JStr "Created");; load
    else alert (JStr "Create failed").

Definition uploadFile (i : ident) (file : string) : M unit :=
  let fd := FormData [("file", file)] in
  tok ← gets token;
  res ← try_catch
          (r ← axios_post ("/api/admin/products/" +:+ to_str (ident_val i) +:+ "/file")
                 fd (bearer tok);
           mret (response_val r))
          (fun e => mret (error_body e));
  (if truthy (opt_get (opt_get res "data") "filePath")
   then alert (JStr "Uploaded") else alert (JStr "Upload failed"));;
  load.

(** ** Catalogue pages *)

(** The catalogue pages fetch on mount: Home and Products call
    [axios.get('/api/products')], ProductDetail calls
    [axios.get('/api/products/' + id)]; a failure is swallowed.  What they
    keep of the reply is local to the page and left out here. *)
Definition fetch_products : M unit :=
  try_catch (_ ← axios_get "/api/products"; mret tt) (fun _ => mret tt).

Definition fetch_product (pid : string) : M unit :=
  try_catch (_ ← axios_get ("/api/products/" +:+ pid); mret tt) (fun _ => mret tt).

(** ** Page load and re-rendering *)

(** A fresh page: [useState(localStorage.getItem('token'))], an empty cart,
    no default header yet. *)
Definition mount (storage : gmap string string) : world :=
  {| token := match storage !! "token" with Some s => JStr s | None => JNull end;
     user := None;
     localStorage := storage;
     axios_defaults := ∅;
     items := [];
     toast_msg := JNull;
     admin_products := JArr [];
     admin_loading := true |}.

Definition offline : request -> reply := fun _ => Rejected {| err_response := None |}.

(** The state once React has re-rendered and run the token effect.  The
    effect only reads and writes the state, so the oracle is immaterial. *)
Definition settle (w : world) : world := world_of (token_effect offline w).

(** Everything in the program that calls the backend or changes the
    session or the cart. *)
Inductive handler :=
| HLogin (email password : string)
| HRegister (email password : string)
| HSubmit (mode : auth_mode) (email pass : string)
| HLogout
| HFetchProducts
| HFetchProduct (pid : string)
| HBuyNow (pid : string)
| HDoCheckout
| HLoad
| HCreate (form : product_form)
| HUploadFile (i : ident) (file : string)
| HCart (op : cart_op).

Definition run (h : handler) : M unit :=
  match h with
  | HLogin email password => _ ← login email password; mret tt
  | HRegister email password => _ ← register email password; mret tt
  | HSubmit mode email pass => submit mode email pass
  | HLogout => logout_click
  | HFetchProducts => fetch_products
  | HFetchProduct pid => fetch_product pid
  | HBuyNow pid => buyNow pid
  | HDoCheckout => doCheckout
  | HLoad => load
  | HCreate form => create form
  | HUploadFile i file => uploadFile i file
  | HCart op => modify (setItems (fun c => apply_op c op))
  end.

Definition is_upload (h : handler) : bool :=
  match h with HUploadFile _ _ => true | _ => false end.

(** The states the application rests in: a page load, then handlers, each
    followed by the re-render that runs the token effect. *)
Inductive reachable : world → Prop :=
| reach_mount (storage : gmap string string) :
    reachable (settle (mount storage))
| reach_run (w : world) (h : handler) (net : request → reply) :
    reachable w → reachable (settle (world_of (run h net w))).

(** ** Vocabulary of the statements *)

Definition ids (c : list line) : list ident := (fun l => id (product l)) <$> c.

Definition bump (q : Z) (l : line) : line :=
  {| product := product l; qty := qty l + q |}.

(** Two digits of cents. *)
Definition two_digits (c : Z) : string :=
  String (digit_char (c / 10)) (String (digit_char (c mod 10)) "").

(** Sample products for the closed statements below. *)
Definition ebook : Product :=
  {| id := IdNum 1; title := "Ebook"; description := "A book";
     price := 799; coverImageUrl := "" |}.

Definition font : Product :=
  {| id := IdNum 2; title := "Font"; description := "A typeface";
     price := 0; coverImageUrl := "" |}.

Definition positive_qty (c : list line) : Prop := Forall (fun l => 1 ≤ qty l) c.

(** An [add] that passes a quantity passes one that is at least 1. *)
Definition adds_at_least_one (op : cart_op) : Prop :=
  match op with
  | OpAdd _ (Some q) => 1 ≤ q
  | _ => True
  end.

(** The call both checkout handlers make. *)
Definition checkout_request (w : world) (productId : jsval) : request :=
  {| method := POST; url := "/api/checkout"; body := checkout_body productId;
     headers := axios_defaults w |}.

Definition downloadUrl (r : response) : jsval := opt_get (data r) "downloadUrl".

(** A backend for the closed statements: it signs everybody in and sells
    everything. *)
Definition shop (req : request) : reply :=
  if String.eqb (url req) "/api/auth/login" then
    Resolved {| data := JObj [("token", JStr "t0k3n")] |}
  else if String.eqb (url req) "/api/checkout" then
    Resolved {| data := JObj [("downloadUrl", JStr "/files/1.zip")] |}
  else Rejected {| err_response := None |}.

Definition signed_out : world := settle (mount ∅).

Definition signed_in : world :=
  settle (world_of (run (HLogin "ann@example.com" "secret") shop signed_out)).

Definition signed_in_with_cart : world :=
  settle (world_of (run (HCart (OpAdd font None)) shop
    (settle (world_of (run (HCart (OpAdd ebook None)) shop signed_in))))).

(** What the handlers show when a checkout call does not yield a link. *)
Definition no_download (rep : reply) : Prop :=
  match rep with
  | Resolved r => truthy (downloadUrl r) = false
  | Rejected _ => True
  end.

Definition checkout_error (rep : reply) : jsval :=
  match rep with
  | Resolved r => js_or (opt_get (data r) "error") (JStr "Checkout failed")
  | Rejected _ => JStr "Checkout error"
  end.

Definition authorization (r : request) : option string :=
  headers r !! "Authorization".

(** Token, local storage, default header and user agree. *)
Definition session_consistent (w : world) : Prop :=
  if truthy (token w) then
    localStorage w !! "token" = Some (to_str (token w)) ∧
    axios_defaults w !! "Authorization" = Some ("Bearer " +:+ to_str (token w)) ∧
    user w = Some "user@me"
  else
    localStorage w !! "token" = None ∧
    axios_defaults w !! "Authorization" = None ∧
    user w = None.

Definition auth_request (w : world) (endpoint email password : string) : request :=
  {| method := POST; url := endpoint; body := credentials email password;
     headers := axios_defaults w |}.

Definition upload_request (w : world) (i : ident) (file : string) : request :=
  {| method := POST;
     url := "/api/admin/products/" +:+ to_str (ident_val i) +:+ "/file";
     body := FormData [("file", file)];
     headers := bearer (token w) ∪ axios_defaults w |}.

(** What [res?.data?.id] and [res?.data?.filePath] read: a field of the
    reply's data when the call resolved; when it was rejected, [res] is the
    body of the error response, read one level further down. *)
Definition admin_field (rep : reply) (k : string) : jsval :=
  match rep with
  | Resolved r => opt_get (data r) k
  | Rejected e => opt_get (opt_get (error_body e) "data") k
  end.

Definition create_request (w : world) (form : product_form) : request :=
  {| method := POST; url := "/api/admin/products"; body := form_payload form;
     headers := bearer (token w) ∪ axios_defaults w |}.

(** ** CartPage *)

(** JavaScript numbers are binary64.  On integers, [+] and [*] return the
    exact result rounded to 53 significant bits, to nearest with ties to
    even.  Results of magnitude 2^1024 and more overflow and are outside
    this model. *)
Definition round53 (n : Z) : Z :=
  let a := Z.abs n in
  if a <? 2 ^ 53 then n
  else
    let e := Z.log2 a - 52 in
    let q := a / 2 ^ e in
    let r := a mod 2 ^ e in
    let q' :=
      match 2 * r ?= 2 ^ e with
      | Lt => q
      | Gt => q + 1
      | Eq => if Z.even q then q else q + 1
      end in
    Z.sgn n * (q' * 2 ^ e).

Definition js_add (a b : Z) : Z := round53 (a + b).
Definition js_mul (a b : Z) : Z := round53 (a * b).

(** const total = items.reduce((s, it) => s + (it.price * it.qty), 0); *)
Definition total (its : list line) : Z :=
  foldl (fun s it => js_add s (js_mul (price (product it)) (qty it))) 0 its.

(** The sum of price times quantity as a number, without rounding. *)
Definition exact_total (its : list line) : Z :=
  foldl (fun s it => s + price (product it) * qty it) 0 its.

(** A cart whose prices and quantities are non-negative integers below 2^53
    and whose exact total is below 2^53: no number the cart page computes
    from it is rounded. *)
Definition safe_cart (c : list line) : Prop :=
  Forall (fun l => 0 ≤ price (product l) < 2 ^ 53 ∧ 0 ≤ qty l < 2 ^ 53) c ∧
  exact_total c < 2 ^ 53.

(** [add] with the sum [p.qty + qty] as the code computes it, in binary64.
    [add] above forms the exact sum; the two agree while no sum reaches
    2^53 ([add64_exact]). *)
Definition add64 (product0 : Product) (qty0 : option Z) (prev : list line) : list line :=
  let qty1 := default 1 qty0 in
  match List.find (same_id (id product0)) prev with
  | Some found =>
      map (fun p => if same_id (id product0) p
                    then {| product := product p; qty := js_add (qty p) qty1 |}
                    else p) prev
  | None => prev ++ [ {| product := product0; qty := qty1 |} ]
  end.




(** The lines of a cart that hold a given product id. *)
Definition lines_of (i : ident) (c : list line) : list line :=
  List.filter (same_id i) c.

(** The price a further [add] of a product is charged at: that of the line
    already in the cart, if there is one. *)
Definition unit_price (p : Product) (c : list line) : Z :=
  match List.find (same_id (id p)) c with
  | Some found => price (product found)
  | None => price p
  end.

Definition price_sum (c : list line) : Z :=
  foldr (fun l s => price (product l) + s) 0 c.

(** ** ProductDetail: the label of the buy button *)

(** {product.price === 0 ? 'Download' : 'Buy & Download'} *)
Definition buy_label (price0 : Z) : string :=
  if price0 =? 0 then "Download" else "Buy & Download".

(** ** Further vocabulary *)

Definition auth_endpoint (mode : auth_mode) : string :=
  match mode with
  | ModeLogin => "/api/auth/login"
  | ModeRegister => "/api/auth/register"
  end.

Definition auth_fallback (mode : auth_mode) : string :=
  match mode with
  | ModeLogin => "Login failed"
  | ModeRegister => "Register failed"
  end.

(** The handlers that await [login] or [register], or call [logout]. *)
Definition is_auth (h : handler) : bool :=
  match h with
  | HLogin _ _ | HRegister _ _ | HSubmit _ _ _ | HLogout => true
  | _ => false
  end.

(** The call [load] and the catalogue pages make. *)
Definition products_request (w : world) : request :=
  {| method := GET; url := "/api/products"; body := NoBody;
     headers := axios_defaults w |}.

(** ** Products: the search box

    const filtered = products.filter(p => p.title.toLowerCase().includes(q.toLowerCase()));
    Strings are sequences of one-byte characters here, and [toLowerCase]
    maps the letters A to Z: this is the code's behaviour on ASCII text
    ([ascii_text]), and on ASCII text only. *)

Definition is_ascii_char (c : ascii) : bool := (nat_of_ascii c <? 128)%nat.

Fixpoint ascii_text (s : string) : bool :=
  match s with
  | EmptyString => true
  | String c s' => is_ascii_char c && ascii_text s'
  end.

Definition lower_char (c : ascii) : ascii :=
  let n := nat_of_ascii c in
  if ((65 <=? n) && (n <=? 90))%nat then ascii_of_nat (n + 32) else c.

Fixpoint toLowerCase (s : string) : string :=
  match s with
  | EmptyString => EmptyString
  | String c s' => String (lower_char c) (toLowerCase s')
  end.

(** [s.includes(q)]: [q] starts at some position of [s]. *)
Fixpoint includes (s q : string) : bool :=
  String.prefix q s ||
  match s with
  | EmptyString => false
  | String _ s' => includes s' q
  end.

Definition filtered (q : string) (products : list Product) : list Product :=
  List.filter (fun p => includes (toLowerCase (title p)) (toLowerCase q)) products.

(** ** ProductDetail: loading a product

    const [product, setProduct] = useState(null);
    const [loading, setLoading] = useState(true);
    useEffect(() => { setLoading(true);
      axios.get('/api/products/' + id).then(r => { setProduct(r.data); })
        .catch(() => { }).finally(() => setLoading(false)); }, [id]);
    The state is local to the page; the effect runs on mount and whenever
    the route parameter changes. *)

Record detail := { detail_product : jsval; detail_loading : bool }.

Definition detail_mount : detail := {| detail_product := JNull; detail_loading := true |}.

Definition detail_effect (pid : string) (net : request → reply) (w : world)
    (st : detail) : detail * list event :=
  let st1 := {| detail_product := detail_product st; detail_loading := true |} in
  match axios_get ("/api/products/" +:+ pid) net w with
  | (Ret r, _, t) => ({| detail_product := data r; detail_loading := false |}, t)
  | (Throw _, _, t) =>
      ({| detail_product := detail_product st1; detail_loading := false |}, t)
  end.

(** if (loading) return ...Loading...; if (!product) return ...Product not
    found...; return the product's page. *)
Inductive detail_screen :=
| ScreenLoading
| ScreenNotFound
| ScreenProduct (p : jsval).

Definition detail_view (st : detail) : detail_screen :=
  if detail_loading st then ScreenLoading
  else if negb (truthy (detail_product st)) then ScreenNotFound
  else ScreenProduct (detail_product st).

(** * Properties *)

(** ** The cart *)

Lemma same_id_true i l : same_id i l = true ↔ id (product l) = i.
Proof. unfold same_id. apply bool_decide_eq_true. Qed.

Lemma same_id_false i l : same_id i l = false ↔ id (product l) ≠ i.
Proof. unfold same_id. apply bool_decide_eq_false. Qed.

Lemma find_same_id_None i c : List.find (same_id i) c = None ↔ i ∉ ids c.
Proof.
  induction c as [|l c IH]; simpl.
  - split; [intros _; apply not_elem_of_nil | done].
  - destruct (same_id i l) eqn:E.
    + apply same_id_true in E. split; [done|]. intros H. exfalso. apply H.
      rewrite E. apply list_elem_of_here.
    + apply same_id_false in E. rewrite IH. unfold ids. simpl.
      rewrite not_elem_of_cons. split; [by intros ?; split; [congruence|]|by intros [_ ?]].
Qed.

Lemma add_absent p q c :
  id p ∉ ids c → add p q c = c ++ [ {| product := p; qty := default 1 q |} ].
Proof. intros H. unfold add. apply find_same_id_None in H. by rewrite H. Qed.

Lemma add_present p q c :
  id p ∈ ids c →
  add p q c = (fun l => if same_id (id p) l then bump (default 1 q) l else l) <$> c.
Proof.
  intros H. unfold add.
  destruct (List.find (same_id (id p)) c) eqn:E; [done|].
  apply find_same_id_None in E. done.
Qed.

Lemma ids_add_present p q c : id p ∈ ids c → ids (add p q c) = ids c.
Proof.
  intros H. rewrite add_present by done. unfold ids.
  rewrite <- list_fmap_compose. apply list_fmap_ext.
  intros _ l _. simpl. by destruct (same_id (id p) l).
Qed.

Lemma ids_remove i c : ids (remove i c) = List.filter (fun j => negb (bool_decide (j = i))) (ids c).
Proof.
  induction c as [|l c IH]; [done|]. simpl. unfold same_id at 1.
  destruct (bool_decide (id (product l) = i)); simpl; [done|]. by rewrite IH.
Qed.

Lemma NoDup_ids_apply_op c op : NoDup (ids c) → NoDup (ids (apply_op c op)).
Proof.
  intros H. destruct op as [p q|i|]; simpl.
  - destruct (decide (id p ∈ ids c)) as [Hin|Hout].
    + by rewrite ids_add_present.
    + rewrite add_absent by done. unfold ids. rewrite fmap_app. simpl.
      apply NoDup_app. split_and!; [done| |apply NoDup_singleton].
      intros j Hj Hj'. apply list_elem_of_singleton in Hj'. by subst.
  - rewrite ids_remove. induction H as [|j js Hj Hjs IH]; simpl; [constructor|].
    destruct (bool_decide (j = i)); simpl; [done|].
    constructor; [|done]. intros Hin. apply Hj.
    apply list_elem_of_In in Hin. apply filter_In in Hin as [Hin _].
    by apply list_elem_of_In.
  - constructor.
Qed.

(** X1.  Carts built through the context never hold two lines for one id. *)
Lemma NoDup_ids_run_ops ops : NoDup (ids (run_ops ops)).
Proof.
  unfold run_ops. assert (H : NoDup (ids [])) by constructor.
  revert H. generalize (@nil line). induction ops as [|op ops IH]; intros c H; simpl.
  - done.
  - apply IH. by apply NoDup_ids_apply_op.
Qed.



(** C9.  [remove(id)] keeps, in their order and unchanged, exactly the
    lines whose product id differs from the given one: the result is a
    sublist of the cart, a line is in it exactly when it was in the cart
    with another id, and such a line occurs as often as before.  In a cart
    with pairwise distinct ids that holds the id, one line leaves. *)
Theorem remove_exactly_that_line (i : ident) (prev : list line) :
  sublist (remove i prev) prev ∧
  (∀ l : line, l ∈ remove i prev ↔ l ∈ prev ∧ id (product l) ≠ i) ∧
  (∀ l : line, id (product l) ≠ i →
     count_occ line_eq_dec (remove i prev) l = count_occ line_eq_dec prev l) ∧
  (NoDup (ids prev) → i ∈ ids prev →
     length prev = S (length (remove i prev))).
Proof.
  split_and!.
  - induction prev as [|l c IH]; simpl; [constructor|].
    destruct (same_id i l); simpl; by constructor.
  - intros l. unfold remove. rewrite list_elem_of_In, filter_In, <- list_elem_of_In.
    rewrite negb_true_iff, same_id_false. done.
  - intros l Hl. induction prev as [|l' c IH]; simpl; [done|].
    destruct (same_id i l') eqn:E; simpl.
    + apply same_id_true in E. destruct (line_eq_dec l' l) as [->|]; [done|]. exact IH.
    + destruct (line_eq_dec l' l); by rewrite IH.
  - induction prev as [|l c IH]; intros Hnd Hin.
    + by apply elem_of_nil in Hin.
    + unfold ids in Hnd, Hin. simpl in Hnd, Hin. apply NoDup_cons in Hnd as [Hl Hc].
      simpl. destruct (same_id i l) eqn:E; simpl.
      * apply same_id_true in E. f_equal. subst i.
        clear -Hl. induction c as [|l' c IH]; simpl; [done|].
        apply not_elem_of_cons in Hl as [Hne Hl].
        rewrite (proj2 (same_id_false _ _)) by congruence. simpl. f_equal. by apply IH.
      * apply same_id_false in E. f_equal. apply IH; [done|].
        apply elem_of_cons in Hin as [Hin|Hin]; [congruence|done].
Qed.

Lemma remove_exactly_that_line_witness :
  length [ {| product := font; qty := 1 |}; {| product := ebook; qty := 2 |} ] =
    S (length (remove (IdNum 1)
                 [ {| product := font; qty := 1 |}; {| product := ebook; qty := 2 |} ])).
Proof.
  apply (remove_exactly_that_line (IdNum 1)
           [ {| product := font; qty := 1 |}; {| product := ebook; qty := 2 |} ]).
  - unfold ids. simpl. apply NoDup_cons. split.
    + rewrite list_elem_of_singleton. discriminate.
    + apply NoDup_singleton.
  - unfold ids. simpl. apply list_elem_of_further, list_elem_of_here.
Defined.

(** ** Quantities *)

Lemma positive_qty_apply_op c op :
  adds_at_least_one op → positive_qty c → positive_qty (apply_op c op).
Proof.
  unfold positive_qty. intros Hop Hc. destruct op as [p q|i|].
  - assert (Hq : 1 ≤ default 1 q) by (destruct q; simpl in *; lia).
    unfold apply_op, add. generalize dependent (default 1 q). intros d Hd.
    destruct (List.find _ c) as [found|].
    + apply Forall_fmap. eapply Forall_impl; [exact Hc|].
      intros l' Hl'. simpl in *. destruct (same_id (id p) l'); simpl; lia.
    + apply Forall_app. split; [done|]. by apply Forall_singleton.
  - simpl. unfold remove. rewrite Forall_forall in *. intros l Hl. apply Hc.
    apply list_elem_of_In in Hl. apply filter_In in Hl as [Hl _].
    by apply list_elem_of_In.
  - constructor.
Qed.

(** C7, as the code has it.  No operation of the cart checks the quantity
    it is given, so the bound is inherited from the arguments: in every cart
    built from the empty one by [add], [remove] and [clear], where each
    [add] leaves the quantity out or passes one that is at least 1, every
    line has quantity at least 1. *)
Theorem quantity_at_least_one (ops : list cart_op) :
  Forall adds_at_least_one ops → positive_qty (run_ops ops).
Proof.
  unfold run_ops. assert (H : positive_qty []) by constructor.
  revert H. generalize (@nil line).
  induction ops as [|op ops IH]; intros c Hc Hops; simpl; [done|].
  apply Forall_cons in Hops as [Hop Hops].
  apply IH; [|done]. by apply positive_qty_apply_op.
Qed.

Lemma quantity_at_least_one_witness :
  positive_qty (run_ops [OpAdd ebook None; OpAdd ebook (Some 3); OpAdd font None;
                         OpRemove (IdNum 2)]).
Proof.
  apply quantity_at_least_one.
  repeat (apply Forall_cons; split); simpl; try lia; try exact I. apply Forall_nil_2.
Defined.

(** C7 as stated: [add] accepts the quantity 0 and stores it. *)
Lemma quantity_zero_line :
  ¬ positive_qty (run_ops [OpAdd ebook (Some 0)]).
Proof.
  unfold positive_qty. intros H. apply Forall_cons in H as [H _]. simpl in H. lia.
Qed.

(** ** Prices *)

(** C10.  A price of zero prints as "Free"; 799 cents print as "$7.99": the
    double nearest to 799/100 lies closer to 7.99 than to any other
    two-place decimal. *)
Theorem formatPrice_examples :
  formatPrice 0 = "Free" ∧ formatPrice 799 = "$7.99".
Proof. split; vm_compute; reflexivity. Qed.

(** The binary64 quotient never costs a cent: every price from one cent to
    ten dollars prints as its dollars, a point and its two digits of cents. *)
Lemma formatPrice_dollars_and_cents :
  forallb (fun p => String.eqb (formatPrice p)
                      ("$" +:+ decimal_digits (p / 100) +:+ "." +:+ two_digits (p mod 100)))
    (seqZ 1 1000) = true.
Proof. vm_compute. reflexivity. Qed.

(** ** Checkout *)

Ltac run_handler :=
  unfold mbind, M_bind, mret, M_ret, gets, modify, emit, try_catch,
    alert, toast_show, set_location_href, navigate,
    axios_post, axios_get, axios_call; simpl.

Lemma no_config_headers (m : gmap string string) : ∅ ∪ m = m.
Proof. apply (left_id_L ∅ (∪)). Qed.


(** C8.  With a token and a non-empty cart the cart page makes one call:
    a POST to /api/checkout whose body is [{ productId }] for the id of
    the first line.  The other lines do not reach the backend. *)
Theorem doCheckout_posts_first_item (net : request → reply) (w : world)
    (first : line) (rest : list line) :
  truthy (token w) = true →
  items w = first :: rest →
  requests (trace_of (doCheckout net w)) =
    [ {| method := POST; url := "/api/checkout";
         body := Json (JObj [("productId", ident_val (id (product first)))]);
         headers := axios_defaults w |} ].
Proof.
  intros Htok Hitems. unfold doCheckout. run_handler.
  rewrite Htok. simpl. rewrite Hitems. simpl. rewrite no_config_headers.
  destruct (net _) as [r|e]; simpl; [|done].
  destruct (truthy (opt_get (data r) "downloadUrl")); done.
Qed.



Lemma doCheckout_posts_first_item_witness :
  url <$> requests (trace_of (doCheckout shop signed_in_with_cart)) = ["/api/checkout"].
Proof.
  rewrite (doCheckout_posts_first_item shop signed_in_with_cart
             {| product := ebook; qty := 1 |} [ {| product := font; qty := 1 |} ]);
    reflexivity.
Defined.

(** C1, as the code has it.  With a token:
    - the cart page, on a non-empty cart, calls the backend for the first
      line; a reply with a download link sends the browser there and empties
      the cart, any other reply or a rejected call raises an alert with the
      server's error or a fallback and leaves the state as it was;
    - the detail page calls the backend for its own product; a reply with a
      download link sends the browser there, any other reply or a rejected
      call puts the error into the toast.  The detail page does not touch
      the cart in either case. *)
Theorem checkout_with_session (net : request → reply) (w : world) (pid : string) :
  truthy (token w) = true →
  (∀ (first : line) (rest : list line), items w = first :: rest →
     let req := checkout_request w (ident_val (id (product first))) in
     (∀ r, net req = Resolved r → truthy (downloadUrl r) = true →
        doCheckout net w =
          (Ret tt, setItems (fun _ => []) w,
           [ERequest req; ELocation (to_str (downloadUrl r))])) ∧
     (no_download (net req) →
        doCheckout net w =
          (Ret tt, w, [ERequest req; EAlert (to_str (checkout_error (net req)))]))) ∧
  (let req := checkout_request w (JStr pid) in
   (∀ r, net req = Resolved r → truthy (downloadUrl r) = true →
      buyNow pid net w =
        (Ret tt, w, [ERequest req; ELocation (to_str (downloadUrl r))])) ∧
   (no_download (net req) →
      buyNow pid net w =
        (Ret tt, setMsg (checkout_error (net req)) w, [ERequest req]))).
Proof.
  intros Htok. split.
  - intros first rest Hitems req. subst req. unfold checkout_request, downloadUrl.
    split.
    + intros r Hr Hurl. unfold doCheckout. run_handler.
      rewrite Htok. simpl. rewrite Hitems. simpl. rewrite no_config_headers, Hr.
      simpl. rewrite Hurl. simpl. unfold clear. by destruct w.
    + intros Hfail. unfold doCheckout. run_handler.
      rewrite Htok. simpl. rewrite Hitems. simpl. rewrite no_config_headers.
      destruct (net _) as [r|e]; simpl in *; [|done].
      unfold downloadUrl in Hfail. by rewrite Hfail.
  - intros req. subst req. unfold checkout_request, downloadUrl. split.
    + intros r Hr Hurl. unfold buyNow. run_handler.
      rewrite Htok. simpl. rewrite no_config_headers, Hr. simpl. by rewrite Hurl.
    + intros Hfail. unfold buyNow. run_handler.
      rewrite Htok. simpl. rewrite no_config_headers.
      destruct (net _) as [r|e]; simpl in *; [|done].
      unfold downloadUrl in Hfail. by rewrite Hfail.
Qed.

Lemma checkout_with_session_witness :
  items (world_of (doCheckout shop signed_in_with_cart)) = [] ∧
  ELocation "/files/1.zip" ∈ trace_of (doCheckout shop signed_in_with_cart).
Proof.
  destruct (checkout_with_session shop signed_in_with_cart "1" eq_refl) as [Hcart _].
  destruct (Hcart {| product := ebook; qty := 1 |} [ {| product := font; qty := 1 |} ]
              eq_refl) as [Hok _].
  rewrite (Hok {| data := JObj [("downloadUrl", JStr "/files/1.zip")] |} eq_refl eq_refl).
  split; [reflexivity|]. apply list_elem_of_further, list_elem_of_here.
Defined.

(** C1 as stated: a purchase from the detail page that succeeds leaves the
    cart as it was. *)
Lemma buyNow_keeps_cart :
  reachable signed_in_with_cart ∧
  truthy (token signed_in_with_cart) = true ∧
  trace_of (buyNow "1" shop signed_in_with_cart) =
    [ERequest (checkout_request signed_in_with_cart (JStr "1"));
     ELocation "/files/1.zip"] ∧
  items (world_of (buyNow "1" shop signed_in_with_cart)) =
    [ {| product := ebook; qty := 1 |}; {| product := font; qty := 1 |} ] ∧
  items (world_of (buyNow "1" shop signed_in_with_cart)) ≠ [].
Proof.
  split_and!; [|reflexivity|vm_compute; reflexivity|reflexivity|discriminate].
  do 3 apply reach_run. apply reach_mount.
Qed.

(** ** The session *)

Lemma settle_consistent w : session_consistent (settle w).
Proof.
  unfold session_consistent, settle, token_effect. run_handler.
  destruct (truthy (token w)) eqn:E; simpl; rewrite E.
  - split_and!; [apply lookup_insert_eq|apply lookup_insert_eq|done].
  - split_and!; [apply lookup_delete_eq|apply lookup_delete_eq|done].
Qed.

(** X10.  In every state the application rests in, the token, the stored
    token, the default header and the user agree. *)
Lemma reachable_consistent w : reachable w → session_consistent w.
Proof. destruct 1; apply settle_consistent. Qed.

(** X11.  The effect writes one key of the local storage and no other. *)
Lemma settle_single_key w k :
  k ≠ "token" → localStorage (settle w) !! k = localStorage w !! k.
Proof.
  intros Hk. unfold settle, token_effect. run_handler.
  destruct (truthy (token w)); simpl.
  - by apply lookup_insert_ne.
  - by apply lookup_delete_ne.
Qed.

(** X12.  Re-running the effect on an unchanged token changes nothing, so it does
    not matter that a re-render without a token change skips it. *)
Lemma settle_idempotent w : settle (settle w) = settle w.
Proof.
  unfold settle, token_effect. run_handler.
  destruct (truthy (token w)) eqn:E; simpl; rewrite E; simpl; unfold world_of; simpl;
    unfold update_axios_defaults, update_localStorage, setUser; simpl; f_equal.
  - apply insert_insert_eq.
  - apply insert_insert_eq.
  - apply delete_delete_eq.
  - apply delete_delete_eq.
Qed.

(** [logout] clears the token; once the effect has run the stored token and
    the default header are gone. *)
Lemma logout_clears net w :
  let w' := settle (world_of (logout_click net w)) in
  truthy (token w') = false ∧ localStorage w' !! "token" = None ∧
  axios_defaults w' !! "Authorization" = None ∧ user w' = None.
Proof.
  simpl. unfold settle, token_effect, logout_click, logout. run_handler.
  split_and!; [done|apply lookup_delete_eq|apply lookup_delete_eq|done].
Qed.

Lemma authorization_default (w : world) (m : http_method) (u : string) (b : payload) :
  authorization {| method := m; url := u; body := b; headers := ∅ ∪ axios_defaults w |} =
    axios_defaults w !! "Authorization".
Proof. unfold authorization. simpl. by rewrite no_config_headers. Qed.

Lemma authorization_bearer (w : world) (tok : jsval) (m : http_method) (u : string)
    (b : payload) :
  authorization {| method := m; url := u; body := b;
                   headers := bearer tok ∪ axios_defaults w |} =
    Some ("Bearer " +:+ to_str tok).
Proof.
  unfold authorization, bearer. simpl. apply lookup_union_Some_l, lookup_singleton_eq.
Qed.

Ltac handler_cases :=
  repeat (simpl;
    match goal with
    | H : truthy ?x = _ |- context [truthy ?x] => rewrite H
    | |- context [match ?net ?r with Resolved _ => _ | Rejected _ => _ end] =>
        destruct (net r)
    | |- context [truthy ?x] => destruct (truthy x) eqn:?
    | |- context [match items ?w with [] => _ | _ :: _ => _ end] => destruct (items w)
    | |- context [match err_response ?e with Some _ => _ | None => _ end] =>
        destruct (err_response e)
    end).

Ltac find_event :=
  unfold trace_of; simpl;
  solve [repeat first [apply list_elem_of_here | apply list_elem_of_further]].

Ltac header_goals w :=
  unfold requests; simpl;
  repeat (apply Forall_cons; split);
  try apply Forall_nil_2;
  rewrite ?authorization_default, ?authorization_bearer; try done.

(** X13.  While a token is present every call of every handler carries it as a
    bearer credential. *)
Lemma requests_authorized (h : handler) (net : request → reply) (w : world) :
  session_consistent w → truthy (token w) = true →
  Forall (fun r => authorization r = Some ("Bearer " +:+ to_str (token w)))
    (requests (trace_of (run h net w))).
Proof.
  unfold session_consistent. intros Hc Htok. rewrite Htok in Hc.
  destruct Hc as (_ & Hdef & _).
  destruct h as [e p|e p|[|] e p| | | | | | |f|i f|op]; unfold run, submit, login, register,
    logout_click, logout, fetch_products, fetch_product, buyNow, doCheckout, load,
    create, uploadFile; unfold load; run_handler; handler_cases; header_goals w.
Qed.

(** X14.  Without a token no call carries an Authorization header, the admin
    upload apart. *)
Lemma requests_anonymous (h : handler) (net : request → reply) (w : world) :
  session_consistent w → truthy (token w) = false → is_upload h = false →
  Forall (fun r => authorization r = None) (requests (trace_of (run h net w))).
Proof.
  unfold session_consistent. intros Hc Htok Hup. rewrite Htok in Hc.
  destruct Hc as (_ & Hdef & _).
  destruct h as [e p|e p|[|] e p| | | | | | |f|i f|op]; try discriminate Hup;
    unfold run, submit, login, register,
    logout_click, logout, fetch_products, fetch_product, buyNow, doCheckout, load,
    create; unfold load; run_handler; handler_cases; header_goals w.
Qed.

(** ** Signing in *)

(** A reply with a token signs the user in: the handler returns
    [{ ok: true }] and the token is stored; after the re-render it is
    persisted and attached to later calls. *)
Lemma login_token (net : request → reply) (w : world) (email password : string)
    (r : response) :
  net (auth_request w "/api/auth/login" email password) = Resolved r →
  truthy (opt_get (data r) "token") = true →
  login email password net w =
    (Ret {| ok := true; error := JUndefined |},
     setToken (opt_get (data r) "token") w,
     [ERequest (auth_request w "/api/auth/login" email password)]).
Proof.
  intros Hr Htok. unfold login, auth_request in *. run_handler.
  rewrite no_config_headers, Hr. simpl. by rewrite Htok.
Qed.

Lemma register_token (net : request → reply) (w : world) (email password : string)
    (r : response) :
  net (auth_request w "/api/auth/register" email password) = Resolved r →
  truthy (opt_get (data r) "token") = true →
  register email password net w =
    (Ret {| ok := true; error := JUndefined |},
     setToken (opt_get (data r) "token") w,
     [ERequest (auth_request w "/api/auth/register" email password)]).
Proof.
  intros Hr Htok. unfold register, auth_request in *. run_handler.
  rewrite no_config_headers, Hr. simpl. by rewrite Htok.
Qed.

(** A reply without a token yields [{ ok: false, error }] with the server's
    message or a fallback, and the state is left alone. *)
Lemma login_no_token (net : request → reply) (w : world) (email password : string)
    (r : response) :
  net (auth_request w "/api/auth/login" email password) = Resolved r →
  truthy (opt_get (data r) "token") = false →
  login email password net w =
    (Ret {| ok := false;
            error := js_or (opt_get (data r) "error") (JStr "Login failed") |},
     w, [ERequest (auth_request w "/api/auth/login" email password)]).
Proof.
  intros Hr Htok. unfold login, auth_request in *. run_handler.
  rewrite no_config_headers, Hr. simpl. by rewrite Htok.
Qed.

Lemma register_no_token (net : request → reply) (w : world) (email password : string)
    (r : response) :
  net (auth_request w "/api/auth/register" email password) = Resolved r →
  truthy (opt_get (data r) "token") = false →
  register email password net w =
    (Ret {| ok := false;
            error := js_or (opt_get (data r) "error") (JStr "Register failed") |},
     w, [ERequest (auth_request w "/api/auth/register" email password)]).
Proof.
  intros Hr Htok. unfold register, auth_request in *. run_handler.
  rewrite no_config_headers, Hr. simpl. by rewrite Htok.
Qed.

(** C4, where the code departs from it.  [login] and [register] await the
    call outside any [try]: when axios rejects (a transport failure, or any
    status outside 2xx) they return no value at all, the rejection escapes,
    and [submit], which awaits them unguarded as well, raises no alert.  The
    session is left as it was. *)
Theorem auth_rejection_escapes (net : request → reply) (w : world)
    (email password : string) (e : axios_error) :
  (net (auth_request w "/api/auth/login" email password) = Rejected e →
     login email password net w =
       (Throw e, w, [ERequest (auth_request w "/api/auth/login" email password)]) ∧
     submit ModeLogin email password net w =
       (Throw e, w, [ERequest (auth_request w "/api/auth/login" email password)])) ∧
  (net (auth_request w "/api/auth/register" email password) = Rejected e →
     register email password net w =
       (Throw e, w, [ERequest (auth_request w "/api/auth/register" email password)]) ∧
     submit ModeRegister email password net w =
       (Throw e, w, [ERequest (auth_request w "/api/auth/register" email password)])).
Proof.
  split; intros Hr; unfold submit, login, register, auth_request in *; run_handler;
    rewrite no_config_headers, Hr; done.
Qed.

Lemma auth_rejection_escapes_witness :
  result_of (login "ann@example.com" "secret" offline signed_out) =
    Throw {| err_response := None |} ∧
  trace_of (submit ModeLogin "ann@example.com" "secret" offline signed_out) =
    [ERequest (auth_request signed_out "/api/auth/login" "ann@example.com" "secret")].
Proof.
  destruct (auth_rejection_escapes offline signed_out "ann@example.com" "secret"
              {| err_response := None |}) as [Hlogin _].
  destruct (Hlogin eq_refl) as [H1 H2]. rewrite H1, H2. split; reflexivity.
Defined.

(** ** The admin page *)

(** [create] stops at its guard when there is no token. *)
Lemma create_without_token (net : request → reply) (w : world) (form : product_form) :
  truthy (token w) = false →
  create form net w = (Ret tt, w, [EAlert "Login as admin"]).
Proof. intros Htok. unfold create. run_handler. by rewrite Htok. Qed.

(** When the reply carries no id, or no file path, the admin handlers raise
    their generic alert. *)
Lemma create_failure_alert (net : request → reply) (w : world) (form : product_form) :
  truthy (token w) = true →
  truthy (admin_field (net (create_request w form)) "id") = false →
  create form net w =
    (Ret tt, w, [ERequest (create_request w form); EAlert "Create failed"]).
Proof.
  intros Htok Hid. unfold create, create_request, admin_field, error_body in *.
  run_handler. rewrite Htok. simpl.
  destruct (net _) as [r|e]; simpl in *; by rewrite Hid.
Qed.

Lemma uploadFile_failure_alert (net : request → reply) (w : world) (i : ident)
    (file : string) :
  truthy (admin_field (net (upload_request w i file)) "filePath") = false →
  EAlert "Upload failed" ∈ trace_of (uploadFile i file net w).
Proof.
  intros Hid. unfold uploadFile, upload_request, admin_field, error_body in *.
  unfold load. run_handler.
  destruct (net _) as [r|e]; simpl in *; rewrite Hid; handler_cases; find_event.
Qed.

(** C6, where the code departs from it.  [uploadFile] has no guard: without
    a token it still posts the file, with the header built from the absent
    token, where [create] in the same state stops at its guard. *)
Theorem uploadFile_posts_without_token (net : request → reply) (w : world)
    (i : ident) (file : string) (form : product_form) :
  truthy (token w) = false →
  requests (trace_of (create form net w)) = [] ∧
  ∃ rest : list request,
    requests (trace_of (uploadFile i file net w)) = upload_request w i file :: rest.
Proof.
  intros Htok. split.
  - by rewrite create_without_token.
  - unfold uploadFile, upload_request. unfold load. run_handler.
    handler_cases; eexists; reflexivity.
Qed.

Lemma uploadFile_posts_without_token_witness :
  ∃ rest : list request,
    requests (trace_of (uploadFile (IdNum 1) "ebook.zip" offline signed_out)) =
      upload_request signed_out (IdNum 1) "ebook.zip" :: rest.
Proof.
  apply (uploadFile_posts_without_token offline signed_out (IdNum 1) "ebook.zip"
           {| form_title := ""; form_description := ""; form_price := 0;
              form_coverImageUrl := "" |}).
  reflexivity.
Defined.

(** C5, where the code departs from it.  After a sign-in and a logout the
    session is empty: no token, nothing in local storage, no default header.
    An upload from the admin page in that state still goes out with an
    Authorization header, "Bearer null"; the product list it reloads next is
    fetched without one. *)
Theorem upload_after_logout_is_authorized :
  let w := settle (world_of (run HLogout shop signed_in)) in
  reachable w ∧
  truthy (token w) = false ∧
  localStorage w !! "token" = None ∧
  axios_defaults w !! "Authorization" = None ∧
  authorization <$> requests (trace_of (run (HUploadFile (IdNum 1) "ebook.zip") shop w)) =
    [Some "Bearer null"; None].
Proof.
  split_and!.
  - do 2 apply reach_run. apply reach_mount.
  - reflexivity.
  - vm_compute. reflexivity.
  - vm_compute. reflexivity.
  - vm_compute. reflexivity.
Qed.

(** * Further properties of the code *)

(** ** Cart algebra *)

Lemma exact_total_from (s : Z) (c : list line) :
  foldl (fun s it => s + price (product it) * qty it) s c = s + exact_total c.
Proof.
  unfold exact_total. revert s. induction c as [|l c IH]; intros s; simpl; [lia|].
  rewrite IH, (IH (0 + _)). lia.
Qed.

Lemma exact_total_cons (l : line) (c : list line) :
  exact_total (l :: c) = price (product l) * qty l + exact_total c.
Proof. unfold exact_total at 1. simpl. rewrite exact_total_from. lia. Qed.

Lemma exact_total_app (c1 c2 : list line) :
  exact_total (c1 ++ c2) = exact_total c1 + exact_total c2.
Proof.
  induction c1 as [|l c1 IH]; simpl; [unfold exact_total at 2; simpl; lia|].
  rewrite !exact_total_cons, IH. lia.
Qed.


Lemma round53_exact (n : Z) : Z.abs n < 2 ^ 53 → round53 n = n.
Proof.
  intros Hn. unfold round53. cbv zeta.
  destruct (Z.ltb_spec (Z.abs n) (2 ^ 53)); [done|lia].
Qed.





(** At 2^53 the two differ: two default [add]s are both lost to rounding,
    one [add] of 2 is not. *)
Lemma add_add_rounds :
  qty <$> add64 ebook None (add64 ebook None [ {| product := ebook; qty := 2 ^ 53 |} ]) =
    [2 ^ 53] ∧
  qty <$> add64 ebook (Some 2) [ {| product := ebook; qty := 2 ^ 53 |} ] = [2 ^ 53 + 2].
Proof. split; vm_compute; reflexivity. Qed.

Lemma remove_absent (i : ident) (c : list line) :
  i ∉ ids c → remove i c = c.
Proof.
  induction c as [|l c IH]; intros Hout; [done|].
  unfold ids in Hout. simpl in Hout. apply not_elem_of_cons in Hout as [Hne Hout].
  simpl. rewrite (proj2 (same_id_false i l)) by congruence. simpl. f_equal. by apply IH.
Qed.

(** X3.  Adding a product the cart does not hold and removing it again gives
    the cart back. *)
Theorem remove_add_fresh (p : Product) (q : option Z) (c : list line) :
  id p ∉ ids c → remove (id p) (add p q c) = c.
Proof.
  intros Hout. rewrite add_absent by done. unfold remove.
  rewrite List.filter_app. simpl.
  rewrite (proj2 (same_id_true (id p) _)) by done. simpl.
  rewrite app_nil_r. by apply remove_absent.
Qed.

Lemma remove_add_fresh_witness :
  remove (IdNum 2) (add font (Some 3) [ {| product := ebook; qty := 1 |} ]) =
    [ {| product := ebook; qty := 1 |} ].
Proof.
  apply (remove_add_fresh font (Some 3) [ {| product := ebook; qty := 1 |} ]).
  unfold ids. simpl. rewrite list_elem_of_singleton. discriminate.
Defined.

(** X4.  Removing an id the cart does not hold changes nothing.  After
    [remove(id)] the id is gone, so removing twice is removing once; and
    removals of two ids can be done in either order. *)
Theorem remove_remove (i j : ident) (c : list line) :
  (i ∉ ids c → remove i c = c) ∧
  (i ∉ ids (remove i c)) ∧
  remove i (remove i c) = remove i c ∧
  remove i (remove j c) = remove j (remove i c).
Proof.
  assert (Hgone : i ∉ ids (remove i c)).
  { induction c as [|l c IH]; simpl; [apply not_elem_of_nil|].
    destruct (same_id i l) eqn:E; simpl; [done|].
    apply same_id_false in E. unfold ids. simpl. apply not_elem_of_cons. split; [congruence|done]. }
  split_and!; [apply remove_absent|done|by apply remove_absent|]. clear Hgone.
  induction c as [|l c IH]; simpl; [done|].
  destruct (same_id j l) eqn:Ej, (same_id i l) eqn:Ei; simpl;
    rewrite ?Ej, ?Ei; simpl; first [exact IH | f_equal; exact IH].
Qed.

(** ** The cart total *)

Lemma exact_total_nonneg (c : list line) :
  Forall (fun l => 0 ≤ price (product l) ∧ 0 ≤ qty l) c → 0 ≤ exact_total c.
Proof.
  induction 1 as [|l c [Hp Hq] _ IH]; [done|]. rewrite exact_total_cons. nia.
Qed.

Lemma total_exact_from (s : Z) (c : list line) :
  0 ≤ s →
  Forall (fun l => 0 ≤ price (product l) ∧ 0 ≤ qty l) c →
  s + exact_total c < 2 ^ 53 →
  foldl (fun s it => js_add s (js_mul (price (product it)) (qty it))) s c =
    s + exact_total c.
Proof.
  intros Hs Hc. revert s Hs. induction Hc as [|l c [Hp Hq] Hc IH]; intros s Hs Hlt.
  - unfold exact_total. simpl. lia.
  - rewrite exact_total_cons in Hlt. assert (H0 := exact_total_nonneg c Hc).
    assert (Hpq : 0 ≤ price (product l) * qty l) by nia.
    cbn [foldl]. unfold js_add at 2, js_mul at 2.
    rewrite (round53_exact (price (product l) * qty l)) by lia.
    rewrite (round53_exact (s + _)) by lia.
    rewrite IH by lia. rewrite exact_total_cons. lia.
Qed.

(** Above 2^53 the page's total does round: a cent added to 2^53 is lost. *)
Lemma total_rounds :
  total [ {| product := {| id := IdNum 1; title := ""; description := "";
                           price := 2 ^ 53; coverImageUrl := "" |}; qty := 1 |};
          {| product := {| id := IdNum 2; title := ""; description := "";
                           price := 1; coverImageUrl := "" |}; qty := 1 |};
          {| product := {| id := IdNum 3; title := ""; description := "";
                           price := 1; coverImageUrl := "" |}; qty := 1 |} ] = 2 ^ 53.
Proof. vm_compute. reflexivity. Qed.

(** On a safe cart the page's total is the exact one. *)
Lemma total_exact (c : list line) : safe_cart c → total c = exact_total c.
Proof.
  intros [Hc Hlt]. unfold total. rewrite total_exact_from; [lia|lia| |lia].
  eapply Forall_impl; [exact Hc|]. simpl. intros l [[? _] [? _]]. done.
Qed.

Lemma safe_cart_filter (f : line → bool) (c : list line) :
  safe_cart c → safe_cart (List.filter f c).
Proof.
  intros [Hc Hlt]. assert (Hle : Forall (fun l => 0 ≤ price (product l) < 2 ^ 53 ∧
                                             0 ≤ qty l < 2 ^ 53) (List.filter f c) ∧
                                 exact_total (List.filter f c) ≤ exact_total c).
  { clear Hlt. induction Hc as [|l c [Hp Hq] Hc [IH1 IH2]]; simpl; [by split|].
    assert (H0 : 0 ≤ price (product l) * qty l) by nia.
    destruct (f l); rewrite ?exact_total_cons.
    - split; [by constructor|lia].
    - split; [done|lia]. }
  destruct Hle as [H1 H2]. split; [done|lia].
Qed.

Lemma exact_total_bumped (i : ident) (q : Z) (c : list line) :
  exact_total ((fun l => if same_id i l then bump q l else l) <$> c) =
    exact_total c + q * price_sum (lines_of i c).
Proof.
  induction c as [|l c IH]; simpl; [unfold exact_total; simpl; lia|].
  rewrite !exact_total_cons. change (list_fmap line line ?f c) with (f <$> c).
  rewrite IH. destruct (same_id i l); simpl; lia.
Qed.

Lemma lines_of_absent (i : ident) (c : list line) : i ∉ ids c → lines_of i c = [].
Proof.
  induction c as [|l c IH]; intros Hout; [done|].
  unfold ids in Hout. simpl in Hout. apply not_elem_of_cons in Hout as [Hne Hout].
  simpl. rewrite (proj2 (same_id_false i l)) by congruence. by apply IH.
Qed.

Lemma lines_of_found (i : ident) (c : list line) (found : line) :
  NoDup (ids c) → List.find (same_id i) c = Some found → lines_of i c = [found].
Proof.
  induction c as [|l c IH]; intros Hnd Hfind; [done|].
  unfold ids in Hnd. simpl in Hnd. apply NoDup_cons in Hnd as [Hl Hc].
  simpl in *. destruct (same_id i l) eqn:E.
  - injection Hfind as ->. f_equal. apply lines_of_absent.
    apply same_id_true in E. by rewrite <- E.
  - by apply IH.
Qed.

Lemma add64_safe (p : Product) (q : option Z) (c : list line) :
  safe_cart (add p q c) → add64 p q c = add p q c.
Proof.
  intros [Hc' _]. unfold add64. unfold add in *.
  destruct (List.find _ c) as [found|]; [|done].
  apply map_ext_in. intros l Hl. destruct (same_id (id p) l) eqn:E; [|done].
  f_equal. unfold js_add. apply round53_exact.
  rewrite Forall_forall in Hc'.
  destruct (Hc' {| product := product l; qty := qty l + default 1 q |}) as [_ Hq].
  - apply list_elem_of_In, in_map_iff. exists l. by rewrite E.
  - simpl in Hq. lia.
Qed.

(** X5.  Where nothing is rounded (the cart is safe, and so is the cart with
    the exact new quantity) and the ids of the cart are pairwise distinct,
    adding to the cart, in the code's own binary64 arithmetic, raises the
    page's total by the quantity times the price of the line the cart
    already holds for that id, or times the product's own price when it holds
    none: a later price of a product never reaches a line that is already in
    the cart. *)
Theorem total_add (p : Product) (q : option Z) (c : list line) :
  NoDup (ids c) → safe_cart c → safe_cart (add p q c) →
  total (add64 p q c) = total c + default 1 q * unit_price p c.
Proof.
  intros Hnd Hc Hc'. rewrite add64_safe by done.
  rewrite !total_exact by done. clear Hc Hc'. unfold unit_price.
  destruct (List.find (same_id (id p)) c) as [found|] eqn:Hfind.
  - assert (Hin : id p ∈ ids c).
    { destruct (decide (id p ∈ ids c)) as [|Hout]; [done|].
      apply find_same_id_None in Hout. congruence. }
    rewrite add_present by done. rewrite exact_total_bumped.
    rewrite (lines_of_found _ _ found) by done. simpl. lia.
  - apply find_same_id_None in Hfind. rewrite add_absent by done.
    rewrite exact_total_app, exact_total_cons. change (exact_total []) with 0.
    simpl. lia.
Qed.

Lemma total_add_witness :
  total (add64 {| id := IdNum 1; title := "Ebook"; description := "2nd edition";
                  price := 999; coverImageUrl := "" |} (Some 2)
           [ {| product := ebook; qty := 1 |} ]) = 799 + 2 * 799.
Proof.
  rewrite total_add.
  - reflexivity.
  - unfold ids. simpl. apply NoDup_singleton.
  - split; [|reflexivity]. apply Forall_singleton. simpl. lia.
  - split; [|reflexivity]. apply Forall_singleton. simpl. lia.
Defined.

(** X6.  Where nothing is rounded (the cart is safe), the page's total
    splits into the total of what [remove(id)] keeps and the total of what
    it drops. *)
Theorem total_remove (i : ident) (c : list line) :
  safe_cart c →
  total c = total (remove i c) + total (lines_of i c).
Proof.
  intros Hc. unfold remove, lines_of.
  rewrite !total_exact by (done || by apply safe_cart_filter). clear Hc.
  induction c as [|l c IH]; simpl; [done|].
  rewrite exact_total_cons. destruct (same_id i l); simpl; rewrite exact_total_cons; lia.
Qed.

Lemma total_remove_witness :
  total [ {| product := ebook; qty := 2 |}; {| product := font; qty := 1 |} ] =
    total (remove (IdNum 1)
             [ {| product := ebook; qty := 2 |}; {| product := font; qty := 1 |} ]) +
    total (lines_of (IdNum 1)
             [ {| product := ebook; qty := 2 |}; {| product := font; qty := 1 |} ]).
Proof.
  apply total_remove. split; [|reflexivity].
  repeat (apply Forall_cons; split); simpl; try lia. apply Forall_nil_2.
Defined.




(** ** Prices in general *)

Lemma div_nearest (a b p : Z) : 0 < b → b * p ≤ a < b * (p + 1) → a / b = p.
Proof. intros Hb H. symmetry. apply (Z.div_unique a b p (a - b * p)); lia. Qed.

Lemma dbl_div_100_exact (p : Z) :
  0 < p < 2 ^ 52 → toFixed_nearest (dbl_div p 100) 2 = p.
Proof.
  intros Hp.
  assert (HL := Z.log2_spec p ltac:(lia)).
  assert (HL0 := Z.log2_nonneg p).
  assert (HL1 : Z.log2 p < 52) by (apply Z.log2_lt_pow2; lia).
  unfold toFixed_nearest, dbl_div.
  change (Z.log2 100) with 6.
  set (L := Z.log2 p) in *.
  replace (Z.max 0 (- (L - 6 - 52))) with (58 - L) by lia.
  replace (Z.max 0 (L - 6 - 52)) with 0 by lia.
  cbv zeta. cbv beta iota. simpl mant. simpl expo.
  set (e := if _ <? 2 ^ 52 then L - 6 - 52 - 1 else L - 6 - 52).
  assert (He : -59 ≤ e ≤ -7) by (subst e; destruct (_ <? _); lia).
  replace (Z.max 0 (- e)) with (- e) by lia.
  replace (Z.max 0 e) with 0 by lia.
  assert (HD : 128 ≤ 2 ^ (- e)).
  { change 128 with (2 ^ 7). apply Z.pow_le_mono_r; lia. }
  set (D := 2 ^ (- e)) in *. clearbody D. clear e He.
  change (2 ^ 0) with 1. change (10 ^ Z.of_nat 2) with 100.
  rewrite !Z.mul_1_r.
  assert (Hdm := Z.div_mod (p * D) 100 ltac:(lia)).
  assert (Hr := Z.mod_pos_bound (p * D) 100 ltac:(lia)).
  set (q := (p * D) / 100) in *. set (r := (p * D) mod 100) in *.
  clearbody q r.
  apply div_nearest; [lia|].
  destruct (Z.compare_spec (2 * r) 100) as [Hc|Hc|Hc].
  - destruct (Z.even q); nia.
  - nia.
  - nia.
Qed.

Lemma string_app_cons (x : ascii) (a b : string) :
  String x a +:+ b = String x (a +:+ b).
Proof. reflexivity. Qed.

Lemma string_app_assoc (a b c : string) : (a +:+ b) +:+ c = a +:+ (b +:+ c).
Proof. induction a as [|x a IH]; [done|]. rewrite !string_app_cons. by rewrite IH. Qed.

Lemma string_length_app (a b : string) :
  String.length (a +:+ b) = (String.length a + String.length b)%nat.
Proof. induction a as [|x a IH]; [done|]. rewrite string_app_cons. simpl. by rewrite IH. Qed.

Lemma substring_all (b : string) : substring 0 (String.length b) b = b.
Proof. induction b as [|x b IH]; simpl; [done|]. f_equal. exact IH. Qed.

Lemma substring_app_l (a b : string) : substring 0 (String.length a) (a +:+ b) = a.
Proof.
  induction a as [|x a IH]; [by destruct b|]. rewrite string_app_cons. simpl. by rewrite IH.
Qed.

Lemma substring_app_r (a b : string) :
  substring (String.length a) (String.length b) (a +:+ b) = b.
Proof.
  induction a as [|x a IH]; [apply substring_all|]. rewrite string_app_cons. exact IH.
Qed.

Lemma digits_fuel_acc (f : nat) (n : Z) (acc : string) :
  digits_fuel f n acc = digits_fuel f n "" +:+ acc.
Proof.
  revert n acc. induction f as [|f IH]; intros n acc; simpl; [done|].
  destruct (n / 10 =? 0); [done|].
  rewrite (IH _ (String _ acc)), (IH _ (String _ "")), string_app_assoc. done.
Qed.

Lemma digits_fuel_enough (f g : nat) (n : Z) (acc : string) :
  0 ≤ n < 10 ^ Z.of_nat (S f) → (f ≤ g)%nat →
  digits_fuel (S g) n acc = digits_fuel (S f) n acc.
Proof.
  revert g n acc. induction f as [|f IH]; intros g n acc Hn Hg.
  - simpl. assert (n / 10 = 0) as -> by (apply Z.div_small; simpl in Hn; lia). done.
  - cbn [digits_fuel]. destruct (n / 10 =? 0) eqn:E; [done|].
    destruct g as [|g]; [lia|]. apply IH; [|lia].
    split; [apply Z.div_pos; lia|].
    apply Z.div_lt_upper_bound; [lia|].
    replace (Z.of_nat (S (S f))) with (Z.succ (Z.of_nat (S f))) in Hn by lia.
    rewrite Z.pow_succ_r in Hn by lia. lia.
Qed.

Lemma lt_pow10_log2 (n : Z) : 0 ≤ n → n < 10 ^ Z.of_nat (S (Z.to_nat (Z.log2 n))).
Proof.
  intros Hn. assert (H0 := Z.log2_nonneg n).
  replace (Z.of_nat (S (Z.to_nat (Z.log2 n)))) with (Z.succ (Z.log2 n)) by lia.
  destruct (decide (n = 0)) as [->|Hne]; [done|].
  assert (H := Z.log2_spec n ltac:(lia)).
  eapply Z.lt_le_trans; [apply H|].
  apply Z.pow_le_mono_l. lia.
Qed.

Lemma decimal_digits_small (n : Z) :
  0 ≤ n < 10 → decimal_digits n = String (digit_char n) "".
Proof.
  intros Hn. unfold decimal_digits. cbn [digits_fuel].
  rewrite (Z.div_small n 10), (Z.mod_small n 10) by lia. done.
Qed.

Lemma decimal_digits_step (n : Z) :
  10 ≤ n →
  decimal_digits n = decimal_digits (n / 10) +:+ String (digit_char (n mod 10)) "".
Proof.
  intros Hn. unfold decimal_digits.
  assert (Hq : 1 ≤ n / 10) by (apply Z.div_le_lower_bound; lia).
  assert (Hlog : Z.log2 (n / 10) < Z.log2 n).
  { assert (H2 : 2 * (n / 10) ≤ n).
    { assert (Hdm := Z.div_mod n 10 ltac:(lia)).
      assert (Hr := Z.mod_pos_bound n 10 ltac:(lia)). lia. }
    apply Z.log2_le_mono in H2. rewrite Z.log2_double in H2 by lia. lia. }
  assert (H0 := Z.log2_nonneg (n / 10)).
  cbn [digits_fuel]. destruct (n / 10 =? 0) eqn:E; [lia|].
  rewrite digits_fuel_acc. f_equal.
  destruct (Z.to_nat (Z.log2 n)) as [|g] eqn:Eg; [lia|].
  apply digits_fuel_enough; [|lia].
  split; [lia|]. apply lt_pow10_log2. lia.
Qed.

Lemma cents_digits (n : Z) :
  0 ≤ n →
  n / 10 / 10 = n / 100 ∧ (n / 10) mod 10 = n mod 100 / 10 ∧
  n mod 10 = (n mod 100) mod 10.
Proof.
  intros Hn.
  assert (H1 := Z.div_mod n 100 ltac:(lia)).
  assert (H2 := Z.mod_pos_bound n 100 ltac:(lia)).
  assert (H3 := Z.div_mod (n mod 100) 10 ltac:(lia)).
  assert (H4 := Z.mod_pos_bound (n mod 100) 10 ltac:(lia)).
  set (a := n / 100) in *. set (r := n mod 100) in *.
  set (b := r / 10) in *. set (c := r mod 10) in *.
  assert (Hb : 0 ≤ b) by (subst b; apply Z.div_pos; lia).
  assert (Hq : n / 10 = 10 * a + b).
  { symmetry. apply (Z.div_unique n 10 (10 * a + b) c); lia. }
  rewrite Hq. split_and!.
  - symmetry. apply (Z.div_unique (10 * a + b) 10 a b); lia.
  - symmetry. apply (Z.mod_unique (10 * a + b) 10 a b); lia.
  - symmetry. apply (Z.mod_unique n 10 (10 * a + b) c); lia.
Qed.

Lemma toFixed_digits_cents (n : Z) :
  0 ≤ n →
  toFixed_digits n 2 = decimal_digits (n / 100) +:+ "." +:+ two_digits (n mod 100).
Proof.
  intros Hn. unfold toFixed_digits, two_digits. cbv zeta.
  destruct (decide (n < 10)) as [H1|H1].
  - rewrite (Z.div_small n 100), (Z.mod_small n 100) by lia.
    rewrite (Z.div_small n 10), (Z.mod_small n 10) by lia.
    rewrite decimal_digits_small by lia. done.
  - rewrite (decimal_digits_step n) by lia.
    destruct (cents_digits n Hn) as (Hq & Hd & Hm).
    destruct (decide (n < 100)) as [H2|H2].
    + rewrite (Z.div_small n 100) by lia.
      rewrite (decimal_digits_small (n / 10)).
      2:{ split; [apply Z.div_pos; lia|apply Z.div_lt_upper_bound; lia]. }
      rewrite (decimal_digits_small 0) by lia.
      rewrite <- Hm. rewrite (Z.mod_small n 100) by lia. done.
    + rewrite (decimal_digits_step (n / 10)).
      2:{ apply Z.div_le_lower_bound; lia. }
      rewrite Hq, Hd, <- Hm.
      set (A := decimal_digits (n / 100)).
      rewrite string_app_assoc.
      change (String (digit_char (n mod 100 / 10)) "" +:+ String (digit_char (n mod 10)) "")
        with (String (digit_char (n mod 100 / 10)) (String (digit_char (n mod 10)) "")).
      set (B := String _ (String _ "")).
      assert (HB : String.length B = 2%nat) by done.
      rewrite !string_length_app, !HB.
      destruct (String.length A) as [|k] eqn:EA.
      { exfalso. subst A. clear -EA Hn H2.
        assert (Hq : 1 ≤ n / 100) by (apply Z.div_le_lower_bound; lia).
        destruct (decide (n / 100 < 10)).
        - rewrite decimal_digits_small in EA by lia. done.
        - rewrite decimal_digits_step, string_length_app in EA by lia. simpl in EA. lia. }
      replace (S k + 2 <=? 2)%nat with false by (symmetry; apply Nat.leb_gt; lia).
      cbn [Nat.eqb].
      replace (String.length (A +:+ B) - 2)%nat with (String.length A)
        by (rewrite string_length_app, HB; lia).
      rewrite substring_app_l. rewrite <- HB at 1. rewrite substring_app_r. done.
Qed.

(** X8.  For every price of at least one cent and below 2^52 cents, the binary
    quotient and [toFixed] lose nothing: the price prints as "$", its whole
    dollars, a point and its two digits of cents; the negated price prints
    the same digits behind "$-". *)
Theorem formatPrice_dollars_cents (p : Z) :
  0 < p < 2 ^ 52 →
  formatPrice p = "$" +:+ decimal_digits (p / 100) +:+ "." +:+ two_digits (p mod 100) ∧
  formatPrice (- p) =
    "$-" +:+ decimal_digits (p / 100) +:+ "." +:+ two_digits (p mod 100).
Proof.
  intros Hp. unfold formatPrice, div100_toFixed2, toFixed.
  destruct (p =? 0) eqn:E0; [lia|]. destruct (- p =? 0) eqn:E1; [lia|].
  destruct (p <? 0) eqn:E2; [lia|]. destruct (- p <? 0) eqn:E3; [|lia].
  rewrite Z.opp_involutive, dbl_div_100_exact by done.
  rewrite toFixed_digits_cents by lia. done.
Qed.

Lemma formatPrice_dollars_cents_witness :
  formatPrice 123456 = "$1234.56" ∧ formatPrice (- 123456) = "$-1234.56".
Proof.
  destruct (formatPrice_dollars_cents 123456) as [H1 H2]; [done|].
  split; [rewrite H1; reflexivity|].
  etransitivity; [exact H2|reflexivity].
Defined.

(** X9.  Only a price of zero prints as "Free", and the detail page labels its
    button "Download" for exactly the prices it prints as "Free". *)
Theorem free_exactly_at_zero (p : Z) :
  (formatPrice p = "Free" ↔ p = 0) ∧
  (buy_label p = "Download" ↔ formatPrice p = "Free").
Proof.
  unfold formatPrice, buy_label. destruct (p =? 0) eqn:E.
  - apply Z.eqb_eq in E. done.
  - apply Z.eqb_neq in E. rewrite string_app_cons. split; split; intros H; done.
Qed.

(** ** Signing in, reloading, signing out *)

(** X15.  A reply with a token signs the user in, from the login form as from the
    registration form: the form navigates home, and once the page has
    re-rendered the token is the one of the reply, it is written to local
    storage and into the default header, and the cart is as it was. *)
Theorem submit_signs_in (net : request → reply) (w : world) (mode : auth_mode)
    (email pass : string) (r : response) :
  net (auth_request w (auth_endpoint mode) email pass) = Resolved r →
  truthy (opt_get (data r) "token") = true →
  trace_of (submit mode email pass net w) =
    [ERequest (auth_request w (auth_endpoint mode) email pass); ENavigate "/"] ∧
  settle (world_of (submit mode email pass net w)) =
    setUser (Some "user@me")
      (update_axios_defaults
         <["Authorization" := "Bearer " +:+ to_str (opt_get (data r) "token")]>
         (update_localStorage <["token" := to_str (opt_get (data r) "token")]>
            (setToken (opt_get (data r) "token") w))).
Proof.
  intros Hr Htok. unfold settle, token_effect, submit, login, register, auth_request in *.
  destruct mode; simpl in Hr; run_handler; rewrite no_config_headers, Hr; simpl;
    rewrite Htok; simpl; rewrite Htok; done.
Qed.

Lemma submit_signs_in_witness :
  localStorage (settle (world_of (submit ModeLogin "ann@example.com" "secret" shop signed_out)))
    !! "token" = Some "t0k3n".
Proof.
  destruct (submit_signs_in shop signed_out ModeLogin "ann@example.com" "secret"
              {| data := JObj [("token", JStr "t0k3n")] |} eq_refl eq_refl) as [_ H].
  rewrite H. reflexivity.
Defined.

(** X16.  A reply without a token changes nothing: the form raises an alert with
    the server's [error], or with "Login failed" / "Register failed" when
    there is none, and does not navigate. *)
Theorem submit_shows_error (net : request → reply) (w : world) (mode : auth_mode)
    (email pass : string) (r : response) :
  net (auth_request w (auth_endpoint mode) email pass) = Resolved r →
  truthy (opt_get (data r) "token") = false →
  submit mode email pass net w =
    (Ret tt, w,
     [ERequest (auth_request w (auth_endpoint mode) email pass);
      EAlert (to_str (js_or (opt_get (data r) "error") (JStr (auth_fallback mode))))]).
Proof.
  intros Hr Htok. unfold submit, login, register, auth_request in *.
  destruct mode; simpl in Hr; run_handler; rewrite no_config_headers, Hr; simpl;
    rewrite Htok; done.
Qed.

Lemma submit_shows_error_witness :
  trace_of (submit ModeRegister "ann@example.com" "secret"
              (fun _ => Resolved {| data := JObj [("error", JStr "Email taken")] |})
              signed_out) =
    [ERequest (auth_request signed_out "/api/auth/register" "ann@example.com" "secret");
     EAlert "Email taken"].
Proof.
  rewrite (submit_shows_error _ signed_out ModeRegister "ann@example.com" "secret"
             {| data := JObj [("error", JStr "Email taken")] |} eq_refl eq_refl).
  reflexivity.
Defined.

(** X17.  Logging out navigates home and, after the re-render, leaves no token,
    no stored token, no default header and no user; every other key of the
    local storage and the cart are kept. *)
Theorem logout_forgets_session (net : request → reply) (w : world) :
  trace_of (logout_click net w) = [ENavigate "/"] ∧
  settle (world_of (logout_click net w)) =
    setUser None
      (update_axios_defaults (delete "Authorization")
         (update_localStorage (delete "token") (setToken JNull w))).
Proof. split; reflexivity. Qed.

(** X18.  A reload keeps a session whose token prints as a non-empty string: the
    token comes back from local storage as that string, storage and user are
    the same, later calls carry the same credential, and the cart is
    empty. *)
Theorem reload_keeps_session (w : world) :
  session_consistent w → truthy (token w) = true → to_str (token w) ≠ "" →
  token (settle (mount (localStorage w))) = JStr (to_str (token w)) ∧
  localStorage (settle (mount (localStorage w))) = localStorage w ∧
  axios_defaults (settle (mount (localStorage w))) !! "Authorization" =
    axios_defaults w !! "Authorization" ∧
  user (settle (mount (localStorage w))) = user w ∧
  items (settle (mount (localStorage w))) = [].
Proof.
  unfold session_consistent. intros Hc Htok Hne. rewrite Htok in Hc.
  destruct Hc as (Hs & Hd & Hu).
  assert (Ht : truthy (JStr (to_str (token w))) = true).
  { simpl. apply negb_true_iff. apply String.eqb_neq. done. }
  unfold settle, token_effect, mount. run_handler. rewrite Hs. simpl in *.
  rewrite Ht. simpl. split_and!; [done| |by rewrite lookup_insert_eq|done|done].
  by apply insert_id.
Qed.

Lemma reload_keeps_session_witness :
  token (settle (mount (localStorage signed_in))) = JStr "t0k3n" ∧
  items (settle (mount (localStorage signed_in_with_cart))) = [].
Proof.
  split.
  - apply (reload_keeps_session signed_in); [apply settle_consistent|reflexivity|discriminate].
  - apply (reload_keeps_session signed_in_with_cart);
      [apply settle_consistent|reflexivity|discriminate].
Defined.

(** X19.  A reload without a session stays without one. *)
Theorem reload_signed_out (w : world) :
  session_consistent w → truthy (token w) = false →
  token (settle (mount (localStorage w))) = JNull ∧
  localStorage (settle (mount (localStorage w))) = localStorage w ∧
  axios_defaults (settle (mount (localStorage w))) !! "Authorization" = None ∧
  user (settle (mount (localStorage w))) = None.
Proof.
  unfold session_consistent. intros Hc Htok. rewrite Htok in Hc.
  destruct Hc as (Hs & Hd & Hu).
  unfold settle, token_effect, mount. run_handler. rewrite Hs. simpl.
  split_and!; [done| |done|done]. by apply delete_id.
Qed.

Lemma reload_signed_out_witness :
  token (settle (mount (localStorage (settle (world_of (logout_click shop signed_in)))))) =
    JNull.
Proof.
  apply (reload_signed_out (settle (world_of (logout_click shop signed_in))));
    [apply settle_consistent|reflexivity].
Defined.

Lemma reachable_consistent_witness : session_consistent signed_in_with_cart.
Proof.
  apply reachable_consistent. do 3 apply reach_run. apply reach_mount.
Defined.

Lemma settle_single_key_witness :
  localStorage (settle (mount {["theme" := "dark"; "token" := ""]})) !! "theme" =
    Some "dark".
Proof.
  rewrite settle_single_key; [reflexivity|discriminate].
Defined.

Lemma requests_authorized_witness :
  Forall (fun r => authorization r = Some "Bearer t0k3n")
    (requests (trace_of (run HDoCheckout shop signed_in_with_cart))).
Proof.
  apply (requests_authorized HDoCheckout shop signed_in_with_cart);
    [apply settle_consistent|reflexivity].
Defined.

Lemma requests_anonymous_witness :
  Forall (fun r => authorization r = None)
    (requests (trace_of (run (HSubmit ModeLogin "ann@example.com" "secret") shop signed_out))).
Proof.
  apply (requests_anonymous (HSubmit ModeLogin "ann@example.com" "secret") shop signed_out);
    [apply settle_consistent|reflexivity|reflexivity].
Defined.

(** ** What the handlers leave alone *)

Ltac unfold_handlers :=
  unfold run, submit, login, register, logout_click, logout, fetch_products,
    fetch_product, buyNow, doCheckout, create, uploadFile;
  unfold load; run_handler.

(** X20.  Only the sign-in forms can end in a rejected promise: every other
    handler completes whatever the backend replies. *)
Theorem handlers_complete (h : handler) (net : request → reply) (w : world) :
  is_auth h = false → result_of (run h net w) = Ret tt.
Proof.
  intros Hh. destruct h as [e p|e p|[|] e p| | | | | | |f|i f|op]; try discriminate Hh;
    unfold_handlers; handler_cases; reflexivity.
Qed.

Lemma handlers_complete_witness :
  result_of (run (HUploadFile (IdNum 1) "ebook.zip") offline signed_out) = Ret tt.
Proof. apply handlers_complete. reflexivity. Defined.

(** X21.  No handler writes the local storage, the default headers or the user:
    that is the token effect's business.  Handlers other than the sign-in
    forms and logout do not touch the token either. *)
Theorem handlers_keep_session (h : handler) (net : request → reply) (w : world) :
  localStorage (world_of (run h net w)) = localStorage w ∧
  axios_defaults (world_of (run h net w)) = axios_defaults w ∧
  user (world_of (run h net w)) = user w ∧
  (is_auth h = false → token (world_of (run h net w)) = token w).
Proof.
  destruct h as [e p|e p|[|] e p| | | | | | |f|i f|op];
    unfold_handlers; handler_cases; split_and!; done.
Qed.

Lemma handlers_keep_session_witness :
  token (world_of (run HDoCheckout shop signed_in_with_cart)) = JStr "t0k3n".
Proof.
  apply (handlers_keep_session HDoCheckout shop signed_in_with_cart). reflexivity.
Defined.

(** X22.  The cart changes in two ways only: through its own operations, and by
    being emptied by the cart-page checkout. *)
Theorem handlers_keep_cart (h : handler) (net : request → reply) (w : world) :
  items (world_of (run h net w)) = items w ∨
  (h = HDoCheckout ∧ items (world_of (run h net w)) = []) ∨
  (∃ op, h = HCart op ∧ items (world_of (run h net w)) = apply_op (items w) op).
Proof.
  destruct h as [e p|e p|[|] e p| | | | | | |f|i f|op];
    unfold_handlers;
    try (destruct (truthy (token w)); simpl; destruct (items w) eqn:E; simpl);
    handler_cases; unfold world_of; simpl;
    first [ left; congruence
          | right; left; split; reflexivity
          | right; right; eexists; split; reflexivity ].
Qed.

(** X23.  With a token and an empty cart the cart-page checkout calls nobody: it
    raises "Cart empty" and leaves the state alone. *)
Theorem doCheckout_empty_cart (net : request → reply) (w : world) :
  truthy (token w) = true → items w = [] →
  doCheckout net w = (Ret tt, w, [EAlert "Cart empty"]).
Proof.
  intros Htok Hitems. unfold doCheckout. run_handler. rewrite Htok. simpl.
  by rewrite Hitems.
Qed.

Lemma doCheckout_empty_cart_witness :
  doCheckout shop signed_in = (Ret tt, signed_in, [EAlert "Cart empty"]).
Proof. apply doCheckout_empty_cart; reflexivity. Defined.

(** ** The admin page *)

(** What [load] leaves in the list of products. *)
Lemma load_outcome (net : request → reply) (w : world) :
  load net w =
    (Ret tt,
     match net (products_request w) with
     | Resolved r => setLoading false (setProducts (data r) w)
     | Rejected _ => setLoading false w
     end,
     [ERequest (products_request w)]).
Proof.
  unfold load, products_request. run_handler. rewrite no_config_headers.
  by destruct (net _).
Qed.

(** X24.  A creation that the backend answers with an id is announced and
    followed by a reload of the product list; the list on the page is
    replaced when that reload succeeds and kept when it fails, and the page
    is no longer loading either way. *)
Theorem create_reloads (net : request → reply) (w : world) (form : product_form)
    (r : response) :
  truthy (token w) = true →
  net (create_request w form) = Resolved r →
  truthy (opt_get (data r) "id") = true →
  trace_of (create form net w) =
    [ERequest (create_request w form); EAlert "Created"; ERequest (products_request w)] ∧
  admin_loading (world_of (create form net w)) = false ∧
  admin_products (world_of (create form net w)) =
    match net (products_request w) with
    | Resolved r' => data r'
    | Rejected _ => admin_products w
    end.
Proof.
  intros Htok Hr Hid. unfold create, create_request in *. run_handler.
  rewrite Htok. simpl. rewrite Hr. simpl. rewrite Hid. simpl.
  rewrite load_outcome. unfold world_of, trace_of. simpl.
  by destruct (net (products_request w)).
Qed.

Lemma create_reloads_witness :
  requests (trace_of (create {| form_title := "Icons"; form_description := "";
                                 form_price := 500; form_coverImageUrl := "" |}
                        (fun req => if String.eqb (url req) "/api/admin/products"
                                    then Resolved {| data := JObj [("id", JNum 3)] |}
                                    else Resolved {| data := JArr [] |})
                        signed_in)) =
    [create_request signed_in {| form_title := "Icons"; form_description := "";
                                 form_price := 500; form_coverImageUrl := "" |};
     products_request signed_in].
Proof.
  destruct (create_reloads
              (fun req => if String.eqb (url req) "/api/admin/products"
                          then Resolved {| data := JObj [("id", JNum 3)] |}
                          else Resolved {| data := JArr [] |})
              signed_in
              {| form_title := "Icons"; form_description := "";
                 form_price := 500; form_coverImageUrl := "" |}
              {| data := JObj [("id", JNum 3)] |} eq_refl eq_refl eq_refl) as [H _].
  rewrite H. reflexivity.
Defined.

(** X25.  An upload is followed by a reload of the product list whether it
    succeeded or not: for every backend and every state the handler makes
    exactly its POST and then the GET, and ends with the page not loading. *)
Theorem uploadFile_reloads (net : request → reply) (w : world) (i : ident)
    (file : string) :
  requests (trace_of (uploadFile i file net w)) =
    [upload_request w i file; products_request w] ∧
  admin_loading (world_of (uploadFile i file net w)) = false.
Proof.
  unfold uploadFile, upload_request, products_request. unfold load. run_handler.
  handler_cases; rewrite ?no_config_headers; handler_cases;
    rewrite ?no_config_headers; done.
Qed.

(** ** The search box of the product list *)

Lemma prefix_spec (q s : string) :
  String.prefix q s = true ↔ ∃ b, s = q +:+ b.
Proof.
  revert s. induction q as [|x q IH]; intros s.
  - split; [intros _; by exists s|intros _; by destruct s].
  - destruct s as [|y s]; simpl; [split; [done|intros [b Hb]; done]|].
    destruct (ascii_dec x y) as [->|Hne].
    + rewrite IH. split; intros [b Hb]; exists b.
      * rewrite string_app_cons. by rewrite Hb.
      * rewrite string_app_cons in Hb. by injection Hb.
    + split; [done|]. intros [b Hb]. rewrite string_app_cons in Hb. congruence.
Qed.

Lemma includes_spec (s q : string) :
  includes s q = true ↔ ∃ a b, s = a +:+ q +:+ b.
Proof.
  induction s as [|y s IH]; cbn [includes].
  - rewrite orb_false_r, prefix_spec. split.
    + intros [b Hb]. by exists "", b.
    + intros (a & b & Hab). destruct a; [by exists b|done].
  - rewrite orb_true_iff, prefix_spec, IH. split.
    + intros [[b Hb]|(a & b & Hab)].
      * by exists "", b.
      * exists (String y a), b. rewrite string_app_cons. by rewrite Hab.
    + intros (a & b & Hab). destruct a as [|x a].
      * left. by exists b.
      * right. exists a, b. rewrite string_app_cons in Hab. by injection Hab.
Qed.

Lemma toLowerCase_app (a b : string) :
  toLowerCase (a +:+ b) = toLowerCase a +:+ toLowerCase b.
Proof.
  induction a as [|x a IH]; [done|]. rewrite string_app_cons. simpl.
  rewrite string_app_cons. by rewrite IH.
Qed.

Lemma filter_sublist_impl {A} (f g : A → bool) (l : list A) :
  (∀ x, f x = true → g x = true) → sublist (List.filter f l) (List.filter g l).
Proof.
  intros Hfg. induction l as [|x l IH]; simpl; [constructor|].
  destruct (f x) eqn:Ef.
  - rewrite (Hfg x Ef). by constructor.
  - destruct (g x); [by constructor|done].
Qed.

(** X26.  With an empty search box the list shows every product. *)
Theorem filtered_empty_query (products : list Product) :
  filtered "" products = products.
Proof.
  unfold filtered. induction products as [|p ps IH]; [done|]. cbn [List.filter].
  assert (H : includes (toLowerCase (title p)) (toLowerCase "") = true).
  { apply includes_spec. by exists "", (toLowerCase (title p)). }
  rewrite H. by rewrite IH.
Qed.

(** X27.  On ASCII text (the titles and the query), typing more never
    brings a product back: the products shown for a query that contains [q]
    are among those shown for [q], in the same order. *)
Theorem filtered_narrows (a q b : string) (products : list Product) :
  ascii_text (a +:+ q +:+ b) = true →
  Forall (fun p => ascii_text (title p) = true) products →
  sublist (filtered (a +:+ q +:+ b) products) (filtered q products).
Proof.
  intros _ _. unfold filtered. apply filter_sublist_impl. intros p.
  rewrite !includes_spec, !toLowerCase_app.
  intros (a' & b' & H). exists (a' +:+ toLowerCase a), (toLowerCase b +:+ b').
  rewrite H. by rewrite !string_app_assoc.
Qed.

Lemma filtered_narrows_witness :
  sublist
    (filtered "alp" [ {| id := IdNum 1; title := "Alpha"; description := ""; price := 0;
                         coverImageUrl := "" |};
                      {| id := IdNum 2; title := "Salt"; description := ""; price := 0;
                         coverImageUrl := "" |} ])
    (filtered "al" [ {| id := IdNum 1; title := "Alpha"; description := ""; price := 0;
                        coverImageUrl := "" |};
                     {| id := IdNum 2; title := "Salt"; description := ""; price := 0;
                        coverImageUrl := "" |} ]).
Proof.
  apply (filtered_narrows "" "al" "p").
  - reflexivity.
  - repeat (apply Forall_cons; split); try reflexivity. apply Forall_nil_2.
Defined.

(** X28.  On ASCII text (the titles and the query), the search ignores
    letter case and finds what is there: a product is shown whenever some
    part of its title equals the query up to case. *)
Theorem filtered_finds (a t b q : string) (p : Product) (products : list Product) :
  ascii_text q = true →
  Forall (fun p => ascii_text (title p) = true) products →
  p ∈ products → title p = a +:+ t +:+ b → toLowerCase t = toLowerCase q →
  p ∈ filtered q products.
Proof.
  intros _ _ Hp Ht Hq. unfold filtered.
  apply list_elem_of_In, filter_In. split; [by apply list_elem_of_In|].
  apply includes_spec. exists (toLowerCase a), (toLowerCase b).
  by rewrite Ht, !toLowerCase_app, Hq.
Qed.

Lemma filtered_finds_witness :
  {| id := IdNum 1; title := "Alpha"; description := ""; price := 0; coverImageUrl := "" |}
    ∈ filtered "al"
        [ {| id := IdNum 1; title := "Alpha"; description := ""; price := 0;
             coverImageUrl := "" |};
          {| id := IdNum 2; title := "Beta"; description := ""; price := 0;
             coverImageUrl := "" |} ].
Proof.
  apply (filtered_finds "" "Al" "pha" "al").
  - reflexivity.
  - repeat (apply Forall_cons; split); try reflexivity. apply Forall_nil_2.
  - apply list_elem_of_here.
  - reflexivity.
  - reflexivity.
Defined.

Lemma remove_remove_witness :
  remove (IdStr "1") [ {| product := ebook; qty := 1 |} ] = [ {| product := ebook; qty := 1 |} ].
Proof.
  destruct (remove_remove (IdStr "1") (IdNum 2) [ {| product := ebook; qty := 1 |} ])
    as [H _].
  apply H. unfold ids. simpl. rewrite list_elem_of_singleton. discriminate.
Defined.

(** ** The product page *)

(** X29.  Once the fetch has settled the product page is never left loading.  A
    reply replaces the product, and an empty one shows "not found"; a failed
    fetch keeps what the page held: "not found" on a fresh page, and the
    product loaded before when the route moved on to another id. *)
Theorem detail_effect_settles (pid : string) (net : request → reply) (w : world)
    (st : detail) :
  detail_view (detail_effect pid net w st).1 ≠ ScreenLoading ∧
  (∀ r, net {| method := GET; url := "/api/products/" +:+ pid; body := NoBody;
               headers := axios_defaults w |} = Resolved r →
     detail_view (detail_effect pid net w st).1 =
       if truthy (data r) then ScreenProduct (data r) else ScreenNotFound) ∧
  (∀ e, net {| method := GET; url := "/api/products/" +:+ pid; body := NoBody;
               headers := axios_defaults w |} = Rejected e →
     detail_view (detail_effect pid net w st).1 =
       if truthy (detail_product st) then ScreenProduct (detail_product st)
       else ScreenNotFound) ∧
  (detail_effect pid net w st).2 =
    [ERequest {| method := GET; url := "/api/products/" +:+ pid; body := NoBody;
                 headers := axios_defaults w |}].
Proof.
  unfold detail_effect, detail_view. run_handler. rewrite no_config_headers.
  destruct (net _) as [r|e]; simpl; split_and!; try done.
  - by destruct (truthy (data r)).
  - intros r' [= <-]. by destruct (truthy (data r)).
  - by destruct (truthy (detail_product st)).
  - intros e' _. by destruct (truthy (detail_product st)).
Qed.

Lemma detail_effect_settles_witness :
  detail_view (detail_effect "2" offline signed_out
                 (detail_effect "1"
                    (fun _ => Resolved {| data := JObj [("id", JNum 1)] |})
                    signed_out detail_mount).1).1 =
    ScreenProduct (JObj [("id", JNum 1)]).
Proof.
  destruct (detail_effect_settles "2" offline signed_out
              (detail_effect "1"
                 (fun _ => Resolved {| data := JObj [("id", JNum 1)] |})
                 signed_out detail_mount).1) as (_ & _ & H & _).
  rewrite (H {| err_response := None |} eq_refl). reflexivity.
Defined.
